(** * viesparser: splitting VIES postal addresses into street, zip and city

    A shallow embedding of the Go package [viesparser] (the file declaring
    [ParseAddress] and [error.go]) together with the part of the Go standard
    library it calls ([strings.TrimSpace], [strings.Count], [strings.Split],
    [strings.Replace], [strings.Join], [slices.Contains], indexing and
    slicing with their run-time panics).

    Go strings are byte sequences; they are modelled by [string], whose
    literals are the UTF-8 bytes of the source text.  Go's [int] is modelled
    by [Z]: every integer of the program is a length, a count or an index
    derived from one, so no 64-bit wrap-around can occur. *)

From Stdlib Require Import String Ascii List ZArith NArith Lia Bool Arith.
Import ListNotations.
Local Open Scope string_scope.
Local Open Scope Z_scope.

(** ** Outcomes of Go code that may panic *)

(** A call either returns a value or panics at run time (index or slice
    bounds out of range). *)
Inductive outcome (A : Type) : Type :=
| Return (a : A)
| Panic.
Arguments Return {A} a.
Arguments Panic {A}.

Definition bind {A B : Type} (m : outcome A) (k : A -> outcome B) : outcome B :=
  match m with
  | Return a => k a
  | Panic => Panic
  end.

Notation "x <- m ;; k" := (bind m (fun x => k))
  (at level 61, m at next level, right associativity).
Notation "' p <- m ;; k" := (bind m (fun x => match x with p => k end))
  (at level 61, p pattern, m at next level, right associativity).

(** ** The built-in [len], indexing and slice expressions *)

Class Len (A : Type) : Type := len : A -> Z.
#[global] Instance Len_string : Len string := fun s => Z.of_nat (String.length s).
#[global] Instance Len_slice {A : Type} : Len (list A) := fun l => Z.of_nat (List.length l).

(** [a[i]]: panics unless [0 <= i < len(a)]. *)
Definition index {A : Type} (a : list A) (i : Z) : outcome A :=
  if (0 <=? i) && (i <? len a)
  then match nth_error a (Z.to_nat i) with
       | Some x => Return x
       | None => Panic
       end
  else Panic.

(** [a[lo:hi]]: panics unless [0 <= lo <= hi <= cap(a)].  Every slice that the
    program slices comes straight from [strings.Split], which allocates
    exactly as many elements as it returns, so [cap(a) = len(a)]. *)
Definition slice {A : Type} (a : list A) (lo hi : Z) : outcome (list A) :=
  if (0 <=? lo) && (lo <=? hi) && (hi <=? len a)
  then Return (firstn (Z.to_nat (hi - lo)) (skipn (Z.to_nat lo) a))
  else Panic.

(** ** Package [unicode/utf8] and [unicode]: white space *)

Definition byte (n : N) : string := String (ascii_of_N n) EmptyString.

(** The line feed, Go's ["\n"]. *)
Definition LF : string := byte 10.

(** [utf8.AppendRune] for a valid rune below U+10000. *)
Definition EncodeRune (r : N) : string :=
  if (r <? 0x80)%N then byte r
  else if (r <? 0x800)%N then
    (byte (N.lor 0xC0 (N.shiftr r 6)) ++ byte (N.lor 0x80 (N.land r 0x3F)))%string
  else
    (byte (N.lor 0xE0 (N.shiftr r 12)) ++
     byte (N.lor 0x80 (N.land (N.shiftr r 6) 0x3F)) ++
     byte (N.lor 0x80 (N.land r 0x3F)))%string.

(** The runes for which [unicode.IsSpace] holds: tab, line feed, vertical tab,
    form feed, carriage return, space, U+0085, U+00A0 and the other code
    points with the White_Space property. *)
Definition spaceRunes : list N :=
  [ 0x09; 0x0A; 0x0B; 0x0C; 0x0D; 0x20; 0x85; 0xA0; 0x1680;
    0x2000; 0x2001; 0x2002; 0x2003; 0x2004; 0x2005; 0x2006; 0x2007;
    0x2008; 0x2009; 0x200A; 0x2028; 0x2029; 0x202F; 0x205F; 0x3000 ]%N.

Definition spaceEncodings : list string := map EncodeRune spaceRunes.

Fixpoint firstSome {A B : Type} (f : A -> option B) (l : list A) : option B :=
  match l with
  | [] => None
  | x :: l' => match f x with
               | Some y => Some y
               | None => firstSome f l'
               end
  end.

(** ** Package [strings] *)

Module strings.

(** [strings.CutPrefix]: [s] without the leading [prefix], when it has it. *)
Fixpoint CutPrefix (s prefix : string) {struct prefix} : option string :=
  match prefix with
  | EmptyString => Some s
  | String p prefix' =>
      match s with
      | EmptyString => None
      | String c s' => if Ascii.eqb c p then CutPrefix s' prefix' else None
      end
  end.

(** [strings.CutSuffix]: [s] without the trailing [suffix], when it has it. *)
Fixpoint CutSuffix (s suffix : string) : option string :=
  if String.eqb s suffix then Some EmptyString
  else match s with
       | EmptyString => None
       | String c s' => option_map (String c) (CutSuffix s' suffix)
       end.

(** [strings.Cut]: the text before and after the first instance of [sep]. *)
Fixpoint Cut (s sep : string) : option (string * string) :=
  match CutPrefix s sep with
  | Some after => Some (EmptyString, after)
  | None =>
      match s with
      | EmptyString => None
      | String c s' =>
          match Cut s' sep with
          | Some (before, after) => Some (String c before, after)
          | None => None
          end
      end
  end.

(** A leading white-space rune is decoded and skipped.  Only the shortest
    UTF-8 form of a rune decodes to it, every other byte sequence decodes to
    another rune or to [utf8.RuneError], which is not white space. *)
Definition cutLeadingSpace (s : string) : option string :=
  firstSome (CutPrefix s) spaceEncodings.

(** The same from the end, as [utf8.DecodeLastRuneInString] finds it. *)
Definition cutTrailingSpace (s : string) : option string :=
  firstSome (CutSuffix s) spaceEncodings.

(** The loops of [TrimLeftFunc] and [TrimRightFunc] at [unicode.IsSpace]:
    every turn removes at least one byte, so [length s] turns are enough. *)
Fixpoint trimLeftLoop (fuel : nat) (s : string) : string :=
  match fuel with
  | O => s
  | S fuel' =>
      match cutLeadingSpace s with
      | Some rest => trimLeftLoop fuel' rest
      | None => s
      end
  end.

Fixpoint trimRightLoop (fuel : nat) (s : string) : string :=
  match fuel with
  | O => s
  | S fuel' =>
      match cutTrailingSpace s with
      | Some rest => trimRightLoop fuel' rest
      | None => s
      end
  end.

Definition TrimLeftSpace (s : string) : string := trimLeftLoop (String.length s) s.
Definition TrimRightSpace (s : string) : string := trimRightLoop (String.length s) s.

(** [strings.TrimSpace]: [TrimFunc(s, unicode.IsSpace)], the ASCII fast path
    of the library computes the same string. *)
Definition TrimSpace (s : string) : string := TrimRightSpace (TrimLeftSpace s).

(** [strings.Count] for a non-empty [substr] (the program counts ["\n"]):
    the number of non-overlapping instances, found left to right. *)
Fixpoint countLoop (fuel : nat) (s substr : string) : nat :=
  match fuel with
  | O => O
  | S fuel' =>
      match Cut s substr with
      | Some (_, after) => S (countLoop fuel' after substr)
      | None => O
      end
  end.

Definition Count (s substr : string) : Z :=
  Z.of_nat (countLoop (String.length s) s substr).

(** [strings.Split] for a non-empty [sep] (the program splits on ["\n"],
    [" "] and [","]): the substrings between the instances of [sep]. *)
Fixpoint splitLoop (fuel : nat) (s sep : string) : list string :=
  match fuel with
  | O => [s]
  | S fuel' =>
      match Cut s sep with
      | Some (before, after) => before :: splitLoop fuel' after sep
      | None => [s]
      end
  end.

Definition Split (s sep : string) : list string := splitLoop (String.length s) s sep.

(** [strings.Replace] for a non-empty [old]: the first [n] instances of
    [old] replaced by [new], all of them when [n < 0]. *)
Fixpoint replaceLoop (n : nat) (s old new : string) : string :=
  match n with
  | O => s
  | S n' =>
      match Cut s old with
      | Some (before, after) => (before ++ new ++ replaceLoop n' after old new)%string
      | None => s
      end
  end.

Definition Replace (s old new : string) (n : Z) : string :=
  replaceLoop (if n <? 0 then String.length s else Z.to_nat n) s old new.

(** [strings.Join]. *)
Definition Join (elems : list string) (sep : string) : string := String.concat sep elems.

End strings.

(** ** Package [slices] *)

Module slices.

Definition Contains (s : list string) (v : string) : bool := existsb (String.eqb v) s.

End slices.

(** ** error.go *)

Inductive error : Type :=
| ErrorInvalidOption
| ErrorMissingAddress
| ErrorMissingCountryCode
| ErrorUnsupportedCountryCode.

(** The message each error was built with by [errors.New]. *)
Definition Error (e : error) : string :=
  match e with
  | ErrorInvalidOption => "invalid option"
  | ErrorMissingAddress => "missing address"
  | ErrorMissingCountryCode => "missing country code"
  | ErrorUnsupportedCountryCode => "unsupported country code"
  end.

(** ** The parser *)

Record ParsedAddress : Type := {
  Street : string;
  City : string;
  Zip : string
}.

Record Config : Type := {
  IgnoreGreek : bool
}.

(** The zero value [ParsedAddress{}]. *)
Definition ParsedAddress_zero : ParsedAddress :=
  {| Street := ""; City := ""; Zip := "" |}.

Definition cz : string := "CZ".
Definition sk : string := "SK".
Definition nl : string := "NL".
Definition be : string := "BE".
Definition fr : string := "FR".
Definition pt : string := "PT".
Definition it : string := "IT".
Definition fi : string := "FI".
Definition ro : string := "RO".
Definition si : string := "SI".
(** [at] in the source; the word is reserved in Rocq. *)
Definition at' : string := "AT".
Definition pl : string := "PL".
Definition hr : string := "HR".
Definition el : string := "EL".
Definition dk : string := "DK".
Definition ee : string := "EE".

Definition SupportedCountryCodes : list string :=
  [cz; sk; nl; be; fr; pt; it; fi; ro; si; at'; pl; hr; el; dk; ee].

(** The transliteration table: the text each key was compiled from by
    [regexp.MustCompile] and the replacement it maps to, in the order of
    the map literal.  No function of the package reads the table. *)
Definition greekExpressions : list (string * string) :=
  [
    ("/[αΑ][ιίΙΊ]/u", "e");
    ("/[οΟΕε][ιίΙΊ]/u", "i");
    ("/[αΑ][υύΥΎ]([θΘκΚξΞπΠσςΣτTφΡχΧψΨ]|\s|$)/u", "af$1");
    ("/[αΑ][υύΥΎ]/u", "av");
    ("/[εΕ][υύΥΎ]([θΘκΚξΞπΠσςΣτTφΡχΧψΨ]|\s|$)/u", "ef$1");
    ("/[εΕ][υύΥΎ]/u", "ev");
    ("/[οΟ][υύΥΎ]/u", "ou");
    ("/(^|\s)[μΜ][πΠ]/u", "$1b");
    ("/[μΜ][πΠ](\s|$)/u", "b$1");
    ("/[μΜ][πΠ]/u", "mp");
    ("/[νΝ][τΤ]/u", "nt");
    ("/[τΤ][σΣ]/u", "ts");
    ("/[τΤ][ζΖ]/u", "tz");
    ("/[γΓ][γΓ]/u", "ng");
    ("/[γΓ][κΚ]/u", "gk");
    ("/[ηΗ][υΥ]([θΘκΚξΞπΠσςΣτTφΡχΧψΨ]|\s|$)/u", "if$1");
    ("/[ηΗ][υΥ]/u", "iu");
    ("/[θΘ]/u", "th");
    ("/[χΧ]/u", "ch");
    ("/[ψΨ]/u", "ps");
    ("/[αά]/u", "a");
    ("/[βΒ]/u", "v");
    ("/[γΓ]/u", "g");
    ("/[δΔ]/u", "d");
    ("/[εέΕΈ]/u", "e");
    ("/[ζΖ]/u", "z");
    ("/[ηήΗΉ]/u", "i");
    ("/[ιίϊΙΊΪ]/u", "i");
    ("/[κΚ]/u", "k");
    ("/[λΛ]/u", "l");
    ("/[μΜ]/u", "m");
    ("/[νΝ]/u", "n");
    ("/[ξΞ]/u", "x");
    ("/[οόΟΌ]/u", "o");
    ("/[πΠ]/u", "p");
    ("/[ρΡ]/u", "r");
    ("/[σςΣ]/u", "s");
    ("/[τΤ]/u", "t");
    ("/[υύϋΥΎΫ]/u", "i");
    ("/[φΦ]/iu", "f");
    ("/[ωώ]/iu", "o");
    ("/[Α]/iu", "a")
  ].

(** [ParseAddress(countryCode, address string, config ...Config)]: the
    variadic [config] arrives as a slice. *)
Definition ParseAddress (countryCode address : string) (config : list Config)
  : outcome (ParsedAddress * option error) :=
  if len countryCode =? 0 then Return (ParsedAddress_zero, Some ErrorMissingCountryCode)
  else if len address =? 0 then Return (ParsedAddress_zero, Some ErrorMissingAddress)
  else
  let countryCode := strings.TrimSpace countryCode in
  let address := strings.TrimSpace address in
  let newlinesCount := strings.Count address LF in
  if negb (slices.Contains SupportedCountryCodes countryCode)
  then Return (ParsedAddress_zero, Some ErrorUnsupportedCountryCode)
  else
  if (newlinesCount =? 1) && slices.Contains [nl; be; fr; fi; at'; pl; dk] countryCode then
    let parts := strings.Split address LF in
    parts1 <- index parts 1 ;;
    let locationParts := strings.Split parts1 " " in
    parts0 <- index parts 0 ;;
    locationParts0 <- index locationParts 0 ;;
    locationParts1 <- index locationParts 1 ;;
    Return ({| Street := strings.TrimSpace parts0;
               Zip := strings.TrimSpace locationParts0;
               City := strings.TrimSpace locationParts1 |}, None)
  else
  if (newlinesCount =? 0) && slices.Contains [si; hr] countryCode then
    let parts := strings.Split address "," in
    parts0 <- index parts 0 ;;
    let street := strings.TrimSpace parts0 in
    street <- (if len parts =? 3
               then parts1 <- index parts 1 ;;
                    Return (street ++ ", " ++ strings.TrimSpace parts1)%string
               else Return street) ;;
    last <- index parts (len parts - 1) ;;
    let locationParts := strings.Split last " " in
    locationParts0 <- index locationParts 0 ;;
    locationParts1 <- index locationParts 1 ;;
    Return ({| Street := street;
               Zip := locationParts0;
               City := locationParts1 |}, None)
  else
  (* the statements that follow the [sk] block *)
  let afterSk :=
    if String.eqb countryCode cz then
      if newlinesCount =? 1 then
        let parts := strings.Split address LF in
        parts0 <- index parts 0 ;;
        let street := strings.TrimSpace parts0 in
        last <- index parts (len parts - 1) ;;
        let lastParts := strings.Split (strings.TrimSpace last) " " in
        cityParts <- slice lastParts (len lastParts - 2) (len lastParts - 1) ;;
        zipParts <- slice lastParts 0 (len lastParts - 2) ;;
        Return ({| Street := street;
                   City := strings.TrimSpace (strings.Join cityParts "");
                   Zip := strings.TrimSpace (strings.Join zipParts "") |}, None)
      else if newlinesCount =? 2 then
        let parts := strings.Split address LF in
        last <- index parts (len parts - 1) ;;
        let lastParts := strings.Split (strings.TrimSpace last) " " in
        parts0 <- index parts 0 ;;
        parts1 <- index parts 1 ;;
        zipParts <- slice lastParts 0 (len lastParts - 2) ;;
        Return ({| Street := strings.TrimSpace parts0;
                   City := strings.TrimSpace parts1;
                   Zip := strings.TrimSpace (strings.Join zipParts "") |}, None)
      else Return (ParsedAddress_zero, Some ErrorInvalidOption)
    else Return (ParsedAddress_zero, None) in
  if String.eqb countryCode sk then
    if newlinesCount =? 1 then
      let city := "" in
      let zip := "" in
      let parts := strings.Split address LF in
      parts0 <- index parts 0 ;;
      let street := strings.TrimSpace parts0 in
      parts1 <- index parts 1 ;;
      '(zip, city) <-
        (if negb (String.eqb parts1 "Slovensko")
         then last <- index parts (len parts - 1) ;;
              let locationParts := strings.Split last " " in
              locationParts0 <- index locationParts 0 ;;
              locationParts1 <- index locationParts 1 ;;
              Return (locationParts0, locationParts1)
         else Return (zip, city)) ;;
      parts1 <- index parts 1 ;;
      '(zip, city, street) <-
        (if String.eqb parts1 "Slovensko"
         then parts0 <- index parts 0 ;;
              let locationParts := strings.Split parts0 " " in
              locationParts0 <- index locationParts 0 ;;
              locationParts1 <- index locationParts 1 ;;
              Return (locationParts0, locationParts1, "")
         else Return (zip, city, street)) ;;
      let city := strings.Replace city "mestská časť " "" 1 in
      let city := strings.Replace city "m. č. " "" 1 in
      Return ({| Street := strings.TrimSpace street;
                 City := strings.TrimSpace city;
                 Zip := strings.TrimSpace zip |}, None)
    else if newlinesCount =? 2 then
      let parts := strings.Split address LF in
      parts0 <- index parts 0 ;;
      let street := strings.TrimSpace parts0 in
      last <- index parts (len parts - 1) ;;
      let locationParts := strings.Split last " " in
      zip <- index locationParts 0 ;;
      city <- index locationParts 1 ;;
      let city := strings.Replace city "mestská časť " "" 1 in
      let city := strings.Replace city "m. č. " "" 1 in
      Return ({| Street := strings.TrimSpace street;
                 City := strings.TrimSpace city;
                 Zip := strings.TrimSpace zip |}, None)
    else afterSk
  else afterSk.

(** [MustParseAddress]: [panic(err)] where [ParseAddress] returns an error. *)
Definition MustParseAddress (countryCode address : string) : outcome ParsedAddress :=
  ' (parsed, err) <- ParseAddress countryCode address [] ;;
  match err with
  | Some _ => Panic
  | None => Return parsed
  end.

(** * Proof steps *)

(** Follows one returning path of the parser through its tests and its
    indexing steps, closing the paths that end in another result. *)
Ltac follow H :=
  repeat (cbn [bind] in H;
          match type of H with
          | Panic = Return _ => discriminate H
          | Return (_, None) = Return (_, Some _) => discriminate H
          | Return (_, Some _) = Return (_, None) => discriminate H
          | Return (_, Some _) = Return (_, Some _) => discriminate H
          | (if ?b then _ else _) = _ => destruct b eqn:?
          | bind ?m _ = _ => destruct m as [?|] eqn:?
          | (let (_, _) := ?x in _) = _ => destruct x
          end).

(** Decides the tests of the parser on a known country code. *)
Ltac dispatch :=
  repeat first
    [ rewrite andb_false_r
    | rewrite andb_true_r
    | progress cbn [negb slices.Contains existsb orb andb String.eqb Ascii.eqb Bool.eqb
                    SupportedCountryCodes cz sk nl be fr pt it fi ro si at' pl hr el dk ee] ].

(** * Facts about the library model *)

Section LibraryFacts.

Lemma append_nil_r (s : string) : (s ++ "")%string = s.
Proof. induction s as [|c s IH]; simpl; [reflexivity | now rewrite IH]. Qed.

Lemma append_assoc (s t u : string) : ((s ++ t) ++ u)%string = (s ++ t ++ u)%string.
Proof. induction s as [|c s IH]; simpl; [reflexivity | now rewrite IH]. Qed.

Lemma length_append (s t : string) :
  String.length (s ++ t) = (String.length s + String.length t)%nat.
Proof. induction s as [|c s IH]; simpl; [reflexivity | now rewrite IH]. Qed.

Lemma length_zero (s : string) : String.length s = O -> s = "".
Proof. destruct s; [reflexivity | discriminate]. Qed.

Lemma len_empty (s : string) : (len s =? 0) = true <-> s = "".
Proof.
  unfold len, Len_string. destruct s as [|c s]; simpl.
  - split; reflexivity.
  - split; discriminate.
Qed.

Lemma len_nonempty (s : string) : s <> "" -> (len s =? 0) = false.
Proof.
  intros Hs. destruct (len s =? 0) eqn:E; [|reflexivity].
  apply len_empty in E. contradiction.
Qed.

Lemma firstSome_Some {A B : Type} (f : A -> option B) (l : list A) (y : B) :
  firstSome f l = Some y -> exists x, In x l /\ f x = Some y.
Proof.
  induction l as [|x l IH]; simpl; [discriminate|].
  destruct (f x) as [y'|] eqn:E.
  - intros [= <-]. exists x. auto.
  - intros H. destruct (IH H) as (x' & Hin & Hx'). exists x'. auto.
Qed.

Lemma firstSome_None {A B : Type} (f : A -> option B) (l : list A) :
  firstSome f l = None <-> forall x, In x l -> f x = None.
Proof.
  induction l as [|x l IH]; simpl.
  - split; [intros _ x [] | reflexivity].
  - destruct (f x) as [y|] eqn:E.
    + split; [discriminate|]. intros H. rewrite <- E. apply H. now left.
    + rewrite IH. split.
      * intros H x' [<-|Hin]; auto.
      * intros H x' Hin. apply H. now right.
Qed.

Lemma spaceEncodings_nonempty (e : string) : In e spaceEncodings -> e <> "".
Proof.
  assert (H : forallb (fun e => negb (String.eqb e "")) spaceEncodings = true)
    by (vm_compute; reflexivity).
  rewrite forallb_forall in H. intros Hin ->.
  specialize (H _ Hin). discriminate.
Qed.

(** *** Prefixes and suffixes *)

Lemma CutPrefix_Some (s prefix rest : string) :
  strings.CutPrefix s prefix = Some rest <-> s = (prefix ++ rest)%string.
Proof.
  revert s. induction prefix as [|p prefix IH]; intros s; simpl.
  - split; [now intros [= ->] | now intros ->].
  - destruct s as [|c s].
    + split; discriminate.
    + destruct (Ascii.eqb c p) eqn:E.
      * apply Ascii.eqb_eq in E. subst c. rewrite IH. split.
        -- now intros ->.
        -- now intros [= ->].
      * apply Ascii.eqb_neq in E. split; [discriminate|].
        intros [= -> _]. contradiction.
Qed.

Lemma CutSuffix_Some (s suffix rest : string) :
  strings.CutSuffix s suffix = Some rest -> s = (rest ++ suffix)%string.
Proof.
  revert rest. induction s as [|c s IH]; intros rest; cbn [strings.CutSuffix].
  - destruct (String.eqb "" suffix) eqn:E; [|discriminate].
    apply String.eqb_eq in E. intros [= <-]. exact E.
  - destruct (String.eqb (String c s) suffix) eqn:E.
    + apply String.eqb_eq in E. intros [= <-]. exact E.
    + destruct (strings.CutSuffix s suffix) as [r|] eqn:Er; simpl; [|discriminate].
      intros [= <-]. simpl. f_equal. now apply IH.
Qed.

Lemma cutLeadingSpace_Some (s rest : string) :
  strings.cutLeadingSpace s = Some rest ->
  exists e, In e spaceEncodings /\ s = (e ++ rest)%string.
Proof.
  intros H. apply firstSome_Some in H. destruct H as (e & Hin & He).
  exists e. split; [assumption|]. now apply CutPrefix_Some.
Qed.

Lemma cutTrailingSpace_Some (s rest : string) :
  strings.cutTrailingSpace s = Some rest ->
  exists e, In e spaceEncodings /\ s = (rest ++ e)%string.
Proof.
  intros H. apply firstSome_Some in H. destruct H as (e & Hin & He).
  exists e. split; [assumption|]. now apply CutSuffix_Some.
Qed.

Lemma cutLeadingSpace_shorter (s rest : string) :
  strings.cutLeadingSpace s = Some rest -> (String.length rest < String.length s)%nat.
Proof.
  intros H. destruct (cutLeadingSpace_Some _ _ H) as (e & Hin & ->).
  apply spaceEncodings_nonempty in Hin. rewrite length_append.
  destruct e; [contradiction | simpl; lia].
Qed.

Lemma cutTrailingSpace_shorter (s rest : string) :
  strings.cutTrailingSpace s = Some rest -> (String.length rest < String.length s)%nat.
Proof.
  intros H. destruct (cutTrailingSpace_Some _ _ H) as (e & Hin & ->).
  apply spaceEncodings_nonempty in Hin. rewrite length_append.
  destruct e; [contradiction | simpl; lia].
Qed.

(** A string that starts with a white-space rune still does after text is
    appended to it. *)
Lemma cutLeadingSpace_None_prefix (s t : string) :
  strings.cutLeadingSpace (s ++ t) = None -> strings.cutLeadingSpace s = None.
Proof.
  unfold strings.cutLeadingSpace. rewrite !firstSome_None. intros H e Hin.
  specialize (H e Hin).
  destruct (strings.CutPrefix s e) as [r|] eqn:E; [|reflexivity].
  apply CutPrefix_Some in E. subst s.
  assert (H' : strings.CutPrefix ((e ++ r) ++ t) e = Some (r ++ t)%string)
    by (apply CutPrefix_Some; apply append_assoc).
  congruence.
Qed.

(** *** The trimming loops *)

Lemma trimLeftLoop_done (fuel : nat) (s : string) :
  (String.length s <= fuel)%nat ->
  strings.cutLeadingSpace (strings.trimLeftLoop fuel s) = None.
Proof.
  revert s. induction fuel as [|fuel IH]; intros s Hlen; cbn [strings.trimLeftLoop].
  - assert (s = "") as -> by (apply length_zero; lia). reflexivity.
  - destruct (strings.cutLeadingSpace s) as [rest|] eqn:E; [|assumption].
    apply IH. apply cutLeadingSpace_shorter in E. lia.
Qed.

Lemma trimRightLoop_done (fuel : nat) (s : string) :
  (String.length s <= fuel)%nat ->
  strings.cutTrailingSpace (strings.trimRightLoop fuel s) = None.
Proof.
  revert s. induction fuel as [|fuel IH]; intros s Hlen; cbn [strings.trimRightLoop].
  - assert (s = "") as -> by (apply length_zero; lia). reflexivity.
  - destruct (strings.cutTrailingSpace s) as [rest|] eqn:E; [|assumption].
    apply IH. apply cutTrailingSpace_shorter in E. lia.
Qed.

Lemma trimLeftLoop_fixed (fuel : nat) (s : string) :
  strings.cutLeadingSpace s = None -> strings.trimLeftLoop fuel s = s.
Proof. intros H. destruct fuel; simpl; [reflexivity | now rewrite H]. Qed.

Lemma trimRightLoop_fixed (fuel : nat) (s : string) :
  strings.cutTrailingSpace s = None -> strings.trimRightLoop fuel s = s.
Proof. intros H. destruct fuel; simpl; [reflexivity | now rewrite H]. Qed.

Lemma trimRightLoop_prefix (fuel : nat) (s : string) :
  exists t, s = (strings.trimRightLoop fuel s ++ t)%string.
Proof.
  revert s. induction fuel as [|fuel IH]; intros s; simpl.
  - exists "". now rewrite append_nil_r.
  - destruct (strings.cutTrailingSpace s) as [rest|] eqn:E.
    + destruct (cutTrailingSpace_Some _ _ E) as (e & _ & ->).
      destruct (IH rest) as (t & Ht). exists (t ++ e)%string.
      rewrite <- append_assoc. now rewrite <- Ht.
    + exists "". now rewrite append_nil_r.
Qed.

(** More fuel than the length of the string changes nothing: the loops have
    ended by then. *)
Lemma trimLeftLoop_fuel (fuel fuel' : nat) (s : string) :
  (String.length s <= fuel)%nat -> (String.length s <= fuel')%nat ->
  strings.trimLeftLoop fuel s = strings.trimLeftLoop fuel' s.
Proof.
  revert fuel' s. induction fuel as [|fuel IH]; intros fuel' s H H'.
  - assert (s = "") as -> by (apply length_zero; lia).
    symmetry. now apply trimLeftLoop_fixed.
  - destruct fuel' as [|fuel'].
    + assert (s = "") as -> by (apply length_zero; lia).
      now apply trimLeftLoop_fixed.
    + cbn [strings.trimLeftLoop].
      destruct (strings.cutLeadingSpace s) as [rest|] eqn:E; [|reflexivity].
      apply cutLeadingSpace_shorter in E. apply IH; lia.
Qed.

Lemma trimRightLoop_fuel (fuel fuel' : nat) (s : string) :
  (String.length s <= fuel)%nat -> (String.length s <= fuel')%nat ->
  strings.trimRightLoop fuel s = strings.trimRightLoop fuel' s.
Proof.
  revert fuel' s. induction fuel as [|fuel IH]; intros fuel' s H H'.
  - assert (s = "") as -> by (apply length_zero; lia).
    symmetry. now apply trimRightLoop_fixed.
  - destruct fuel' as [|fuel'].
    + assert (s = "") as -> by (apply length_zero; lia).
      now apply trimRightLoop_fixed.
    + cbn [strings.trimRightLoop].
      destruct (strings.cutTrailingSpace s) as [rest|] eqn:E; [|reflexivity].
      apply cutTrailingSpace_shorter in E. apply IH; lia.
Qed.

(** *** [strings.TrimSpace] *)

Lemma TrimSpace_leading (s : string) :
  strings.cutLeadingSpace (strings.TrimSpace s) = None.
Proof.
  unfold strings.TrimSpace, strings.TrimRightSpace.
  destruct (trimRightLoop_prefix (String.length (strings.TrimLeftSpace s))
              (strings.TrimLeftSpace s)) as (t & Ht).
  apply cutLeadingSpace_None_prefix with (t := t). rewrite <- Ht.
  apply trimLeftLoop_done. lia.
Qed.

Lemma TrimSpace_trailing (s : string) :
  strings.cutTrailingSpace (strings.TrimSpace s) = None.
Proof. apply trimRightLoop_done. lia. Qed.

(** Text without white space at either end is left as it is. *)
Lemma TrimSpace_fixed (s : string) :
  strings.cutLeadingSpace s = None -> strings.cutTrailingSpace s = None ->
  strings.TrimSpace s = s.
Proof.
  intros Hl Hr. unfold strings.TrimSpace, strings.TrimLeftSpace, strings.TrimRightSpace.
  rewrite (trimLeftLoop_fixed _ _ Hl). now apply trimRightLoop_fixed.
Qed.

Lemma TrimSpace_idempotent (s : string) :
  strings.TrimSpace (strings.TrimSpace s) = strings.TrimSpace s.
Proof. apply TrimSpace_fixed; [apply TrimSpace_leading | apply TrimSpace_trailing]. Qed.

Lemma TrimSpace_empty : strings.TrimSpace "" = "".
Proof. reflexivity. Qed.

Lemma TrimSpace_nonempty (s : string) : strings.TrimSpace s <> "" -> s <> "".
Proof. intros H ->. now apply H. Qed.

(** *** [strings.Cut], [strings.Count] and [strings.Split] *)

Lemma Cut_Some (s sep before after : string) :
  strings.Cut s sep = Some (before, after) -> s = (before ++ sep ++ after)%string.
Proof.
  revert before. induction s as [|c s IH]; intros before; cbn [strings.Cut].
  - destruct (strings.CutPrefix "" sep) as [r|] eqn:E; [|discriminate].
    intros [= <- <-]. apply CutPrefix_Some in E. exact E.
  - destruct (strings.CutPrefix (String c s) sep) as [r|] eqn:E.
    + intros [= <- <-]. apply CutPrefix_Some in E. exact E.
    + destruct (strings.Cut s sep) as [[b a]|] eqn:Ec; [|discriminate].
      intros [= <- <-]. simpl. f_equal. now apply IH.
Qed.

Lemma Cut_shorter (s sep before after : string) :
  sep <> "" -> strings.Cut s sep = Some (before, after) ->
  (String.length after < String.length s)%nat.
Proof.
  intros Hsep H. apply Cut_Some in H. subst s.
  rewrite !length_append. destruct sep; [contradiction | simpl; lia].
Qed.

(** [Split] returns one string more than [Count] counts separators. *)
Lemma splitLoop_length (fuel : nat) (s sep : string) :
  List.length (strings.splitLoop fuel s sep) = S (strings.countLoop fuel s sep).
Proof.
  revert s. induction fuel as [|fuel IH]; intros s; simpl; [reflexivity|].
  destruct (strings.Cut s sep) as [[before after]|]; simpl; [|reflexivity].
  now rewrite IH.
Qed.

Lemma Split_len (s sep : string) : len (strings.Split s sep) = strings.Count s sep + 1.
Proof.
  unfold len, Len_slice, strings.Split, strings.Count.
  rewrite splitLoop_length. lia.
Qed.

Lemma Split_two (s sep first second : string) :
  strings.Split s sep = [first; second] -> strings.Count s sep = 1.
Proof.
  intros H. pose proof (Split_len s sep) as Hlen. rewrite H in Hlen.
  unfold len at 1, Len_slice in Hlen. cbn [List.length] in Hlen. lia.
Qed.

Lemma countLoop_fuel (fuel fuel' : nat) (s sep : string) :
  sep <> "" -> (String.length s <= fuel)%nat -> (String.length s <= fuel')%nat ->
  strings.countLoop fuel s sep = strings.countLoop fuel' s sep.
Proof.
  intros Hsep. revert fuel' s. induction fuel as [|fuel IH]; intros fuel' s H H'.
  - assert (s = "") as -> by (apply length_zero; lia).
    destruct fuel'; simpl; [reflexivity|]. destruct sep; [contradiction | reflexivity].
  - destruct fuel' as [|fuel'].
    + assert (s = "") as -> by (apply length_zero; lia).
      simpl. destruct sep; [contradiction | reflexivity].
    + cbn [strings.countLoop].
      destruct (strings.Cut s sep) as [[before after]|] eqn:E; [|reflexivity].
      apply Cut_shorter in E; [|assumption]. f_equal. apply IH; lia.
Qed.

Lemma splitLoop_fuel (fuel fuel' : nat) (s sep : string) :
  sep <> "" -> (String.length s <= fuel)%nat -> (String.length s <= fuel')%nat ->
  strings.splitLoop fuel s sep = strings.splitLoop fuel' s sep.
Proof.
  intros Hsep. revert fuel' s. induction fuel as [|fuel IH]; intros fuel' s H H'.
  - assert (s = "") as -> by (apply length_zero; lia).
    destruct fuel'; simpl; [reflexivity|]. destruct sep; [contradiction | reflexivity].
  - destruct fuel' as [|fuel'].
    + assert (s = "") as -> by (apply length_zero; lia).
      simpl. destruct sep; [contradiction | reflexivity].
    + cbn [strings.splitLoop].
      destruct (strings.Cut s sep) as [[before after]|] eqn:E; [|reflexivity].
      apply Cut_shorter in E; [|assumption]. f_equal. apply IH; lia.
Qed.

End LibraryFacts.

(** * Facts about the parser *)

Lemma index_head {A : Type} (x : A) (l : list A) : index (x :: l) 0 = Return x.
Proof. reflexivity. Qed.

Lemma index_second {A : Type} (x y : A) (l : list A) : index (x :: y :: l) 1 = Return y.
Proof.
  unfold index, len, Len_slice. cbn [List.length].
  replace (1 <? Z.of_nat (S (S (List.length l)))) with true
    by (symmetry; apply Z.ltb_lt; lia).
  reflexivity.
Qed.

Lemma index_single {A : Type} (x : A) : index [x] 1 = Panic.
Proof. reflexivity. Qed.

Lemma bind_Return {A B : Type} (m : outcome A) (k : A -> outcome B) (b : B) :
  bind m k = Return b -> exists a, m = Return a /\ k a = Return b.
Proof. destruct m as [a|]; simpl; [|discriminate]. intros H. exists a. auto. Qed.

Section ParserFacts.

Variables (countryCode address : string) (config : list Config).

(** The two tests on the lengths look at the arguments as passed, before
    [strings.TrimSpace]. *)
Lemma ParseAddress_empty_countryCode :
  ParseAddress "" address config = Return (ParsedAddress_zero, Some ErrorMissingCountryCode).
Proof. reflexivity. Qed.

Lemma ParseAddress_empty_address :
  countryCode <> "" ->
  ParseAddress countryCode "" config = Return (ParsedAddress_zero, Some ErrorMissingAddress).
Proof. intros H. unfold ParseAddress. now rewrite (len_nonempty _ H). Qed.

Lemma ParseAddress_MissingCountryCode_iff (parsed : ParsedAddress) :
  ParseAddress countryCode address config = Return (parsed, Some ErrorMissingCountryCode)
  <-> countryCode = "" /\ parsed = ParsedAddress_zero.
Proof.
  split.
  - intros H. unfold ParseAddress in H. cbv zeta in H.
    destruct (len countryCode =? 0) eqn:Ecc.
    + apply len_empty in Ecc. injection H as <-. auto.
    + follow H.
  - intros [-> ->]. reflexivity.
Qed.

Lemma ParseAddress_MissingAddress_iff (parsed : ParsedAddress) :
  ParseAddress countryCode address config = Return (parsed, Some ErrorMissingAddress)
  <-> countryCode <> "" /\ address = "" /\ parsed = ParsedAddress_zero.
Proof.
  split.
  - intros H. unfold ParseAddress in H. cbv zeta in H.
    destruct (len countryCode =? 0) eqn:Ecc; [discriminate H|].
    destruct (len address =? 0) eqn:Ea.
    + apply len_empty in Ea. injection H as <-.
      repeat split; [|assumption]. intros ->. discriminate Ecc.
    + follow H.
  - intros (Hcc & -> & ->). now apply ParseAddress_empty_address.
Qed.

(** A country code of white space only passes the test on its length and is
    then looked up, trimmed to the empty string, among the supported codes. *)
Lemma ParseAddress_blank_countryCode :
  countryCode <> "" -> address <> "" -> strings.TrimSpace countryCode = "" ->
  ParseAddress countryCode address config =
  Return (ParsedAddress_zero, Some ErrorUnsupportedCountryCode).
Proof.
  intros Hcc Ha Ht. unfold ParseAddress.
  rewrite (len_nonempty _ Hcc), (len_nonempty _ Ha). cbv zeta. rewrite Ht.
  reflexivity.
Qed.

(** Past the two tests on the lengths only the trimmed address is read. *)
Lemma ParseAddress_TrimSpace_address :
  strings.TrimSpace address <> "" ->
  ParseAddress countryCode (strings.TrimSpace address) config =
  ParseAddress countryCode address config.
Proof.
  intros Ht. pose proof (TrimSpace_nonempty _ Ht) as Ha.
  unfold ParseAddress. destruct (len countryCode =? 0); [reflexivity|].
  rewrite (len_nonempty _ Ht), (len_nonempty _ Ha).
  rewrite TrimSpace_idempotent. reflexivity.
Qed.

(** No rule is written for the codes [pt], [it], [ro], [el] and [ee]. *)
Lemma ParseAddress_no_rule :
  In countryCode [pt; it; ro; el; ee] -> address <> "" ->
  ParseAddress countryCode address config = Return (ParsedAddress_zero, None).
Proof.
  intros Hin Ha. unfold ParseAddress. rewrite (len_nonempty _ Ha). cbv zeta.
  generalize (strings.Count (strings.TrimSpace address) LF) as n. intros n.
  repeat (destruct Hin as [<-|Hin]; [dispatch; reflexivity|]).
  destruct Hin.
Qed.

End ParserFacts.

(** * The properties of the specification *)

(** C1, as the code has it: for the country code "EL" and an address with
    Greek text the parser returns the zero result and no error, with the
    configuration omitted and with [IgnoreGreek] set alike; [City] is empty
    in both, neither transliterated nor the Greek text. *)
Theorem ParseAddress_EL_greek_city :
  let address := ("Ερμού 15" ++ LF ++ "10563 Αθήνα")%string in
  ParseAddress "EL" address [] =
    Return ({| Street := ""; City := ""; Zip := "" |}, None) /\
  ParseAddress "EL" address [{| IgnoreGreek := true |}] =
    Return ({| Street := ""; City := ""; Zip := "" |}, None).
Proof. vm_compute. split; reflexivity. Qed.

(** C2, as the code has it: the last comma-part of
    "Neka ulica 5, 1000 Ljubljana" starts with the space that follows the
    comma, so its first token is empty: [Zip] is empty and [City] is "1000". *)
Theorem ParseAddress_SI_space_after_comma :
  ParseAddress "SI" "Neka ulica 5, 1000 Ljubljana" [] =
  Return ({| Street := "Neka ulica 5"; City := "1000"; Zip := "" |}, None).
Proof. vm_compute. reflexivity. Qed.

(** Without the space after the comma the fields are the expected ones. *)
Lemma ParseAddress_SI_no_space_after_comma :
  ParseAddress "SI" "Neka ulica 5,1000 Ljubljana" [] =
  Return ({| Street := "Neka ulica 5"; City := "Ljubljana"; Zip := "1000" |}, None).
Proof. vm_compute. reflexivity. Qed.

(** C3, as the code has it: inputs of white space only are not reported as
    missing.  A blank country code gives [ErrorUnsupportedCountryCode]; a
    blank address gives [ErrorInvalidOption] for "CZ", the zero result
    without an error for "SK" and "NL", and a panic for "SI". *)
Theorem ParseAddress_blank_inputs :
  ParseAddress " " "Hlavná 1" [] =
    Return (ParsedAddress_zero, Some ErrorUnsupportedCountryCode) /\
  ParseAddress "CZ" " " [] = Return (ParsedAddress_zero, Some ErrorInvalidOption) /\
  ParseAddress "SK" " " [] = Return (ParsedAddress_zero, None) /\
  ParseAddress "NL" (" " ++ LF)%string [] = Return (ParsedAddress_zero, None) /\
  ParseAddress "SI" " " [] = Panic.
Proof. vm_compute. repeat split. Qed.

(** C4 fails at its own input: with two line breaks the middle line is not
    looked at and [Street] is the first line. *)
Lemma ParseAddress_SK_three_lines_counterexample :
  ~ (exists parsed err,
       ParseAddress "SK"
         ("Hlavná 1" ++ LF ++ "Slovensko" ++ LF ++ "811 01 Bratislava")%string [] =
       Return (parsed, err) /\ Street parsed = "").
Proof.
  intros (parsed & err & H & HS). vm_compute in H.
  injection H as <- _. discriminate HS.
Qed.

(** C4, amended: for "SK" and the address of three lines "Hlavná 1",
    "Slovensko", "811 01 Bratislava" the parser returns [Street] "Hlavná 1",
    the first line, and takes [Zip] "811" and [City] "01" from the first two
    space-separated tokens of the last line, not from the first line; there
    is no error. *)
Theorem ParseAddress_SK_Slovensko :
  strings.Split
    (strings.TrimSpace ("Hlavná 1" ++ LF ++ "Slovensko" ++ LF ++ "811 01 Bratislava")%string)
    LF = ["Hlavná 1"; "Slovensko"; "811 01 Bratislava"] /\
  strings.Split "811 01 Bratislava" " " = ["811"; "01"; "Bratislava"] /\
  ParseAddress "SK"
    ("Hlavná 1" ++ LF ++ "Slovensko" ++ LF ++ "811 01 Bratislava")%string [] =
    Return ({| Street := "Hlavná 1"; City := "01"; Zip := "811" |}, None).
Proof. vm_compute. repeat split. Qed.

(** Where the test on "Slovensko" does apply: an address of two lines whose
    second line is exactly "Slovensko" and whose first line has a space.
    [Street] is then empty and [Zip] and [City] are the first two tokens of
    the first line. *)
Lemma ParseAddress_SK_second_line_Slovensko
    (address line1 zip city : string) (tokens : list string) (config : list Config) :
  strings.Split (strings.TrimSpace address) LF = [line1; "Slovensko"] ->
  strings.Split line1 " " = zip :: city :: tokens ->
  ParseAddress "SK" address config =
  Return ({| Street := "";
             City := strings.TrimSpace
                       (strings.Replace
                          (strings.Replace city "mestská časť " "" 1) "m. č. " "" 1);
             Zip := strings.TrimSpace zip |}, None).
Proof.
  intros Hlines Htokens.
  assert (Ha : address <> "") by (intros ->; discriminate Hlines).
  pose proof (Split_two _ _ _ _ Hlines) as Hn.
  unfold ParseAddress. rewrite (len_nonempty _ Ha).
  change (len "SK" =? 0) with false. cbv zeta.
  change (strings.TrimSpace "SK") with "SK".
  rewrite Hn, Hlines. dispatch. change (1 =? 1) with true.
  cbn [negb]. rewrite index_head, index_second. cbn [bind String.eqb Ascii.eqb Bool.eqb negb].
  rewrite Htokens, index_head, index_second. reflexivity.
Qed.

(** C5 fails: an address of "SK" on one line is answered with the zero
    result and no error. *)
Lemma ParseAddress_SK_one_line_counterexample :
  strings.TrimSpace "Hlavná 1" <> "" /\
  strings.Count (strings.TrimSpace "Hlavná 1") LF = 0 /\
  ~ (exists parsed,
       ParseAddress "SK" "Hlavná 1" [] = Return (parsed, Some ErrorUnsupportedCountryCode)).
Proof.
  split; [vm_compute; discriminate|]. split; [reflexivity|].
  intros (parsed & H). vm_compute in H. discriminate H.
Qed.

(** C5, amended: for "SK" and every address, non-empty after trimming, whose
    number of line breaks is neither 1 nor 2, the parser returns the zero
    result and no error. *)
Theorem ParseAddress_SK_other_line_counts (address : string) (config : list Config) :
  strings.TrimSpace address <> "" ->
  strings.Count (strings.TrimSpace address) LF <> 1 ->
  strings.Count (strings.TrimSpace address) LF <> 2 ->
  ParseAddress "SK" address config = Return (ParsedAddress_zero, None).
Proof.
  intros Ht H1 H2. pose proof (TrimSpace_nonempty _ Ht) as Ha.
  unfold ParseAddress. rewrite (len_nonempty _ Ha).
  change (len "SK" =? 0) with false. cbv zeta.
  change (strings.TrimSpace "SK") with "SK".
  apply Z.eqb_neq in H1, H2. rewrite H1, H2. dispatch. reflexivity.
Qed.

Lemma ParseAddress_SK_other_line_counts_witness :
  strings.TrimSpace "Hlavná 1" <> "" /\
  ParseAddress "SK" "Hlavná 1" [] = Return (ParsedAddress_zero, None).
Proof.
  split; [vm_compute; discriminate|].
  apply ParseAddress_SK_other_line_counts; vm_compute; discriminate.
Defined.

(** C6: for "NL" and "Hoofdstraat 1", line break, "1234 AB Amsterdam" the
    parser returns [Street] "Hoofdstraat 1", [Zip] "1234" and [City] "AB":
    the second token of the second line, what follows it is dropped. *)
Theorem ParseAddress_NL_second_token :
  ParseAddress "NL" ("Hoofdstraat 1" ++ LF ++ "1234 AB Amsterdam")%string [] =
  Return ({| Street := "Hoofdstraat 1"; City := "AB"; Zip := "1234" |}, None).
Proof. vm_compute. reflexivity. Qed.

(** C7: for "CZ" and every address, non-empty after trimming, whose number
    of line breaks is neither 1 nor 2, the parser fails with
    [ErrorInvalidOption]; and whenever the parser fails with
    [ErrorInvalidOption] the trimmed country code is "CZ". *)
Theorem ParseAddress_InvalidOption_CZ :
  (forall (address : string) (config : list Config),
     strings.TrimSpace address <> "" ->
     strings.Count (strings.TrimSpace address) LF <> 1 ->
     strings.Count (strings.TrimSpace address) LF <> 2 ->
     ParseAddress "CZ" address config =
     Return (ParsedAddress_zero, Some ErrorInvalidOption)) /\
  (forall (countryCode address : string) (config : list Config) (parsed : ParsedAddress),
     ParseAddress countryCode address config = Return (parsed, Some ErrorInvalidOption) ->
     strings.TrimSpace countryCode = "CZ").
Proof.
  split.
  - intros address config Ht H1 H2. pose proof (TrimSpace_nonempty _ Ht) as Ha.
    unfold ParseAddress. rewrite (len_nonempty _ Ha).
    change (len "CZ" =? 0) with false. cbv zeta.
    change (strings.TrimSpace "CZ") with "CZ".
    apply Z.eqb_neq in H1, H2. rewrite H1, H2. dispatch. reflexivity.
  - intros countryCode address config parsed H.
    unfold ParseAddress in H. cbv zeta in H.
    follow H;
      match goal with
      | E : String.eqb (strings.TrimSpace countryCode) cz = true |- _ =>
          apply String.eqb_eq in E; exact E
      end.
Qed.

Lemma ParseAddress_InvalidOption_CZ_witness :
  ParseAddress "CZ" "Hlavní 1" [] = Return (ParsedAddress_zero, Some ErrorInvalidOption) /\
  strings.TrimSpace " CZ " = "CZ".
Proof.
  split.
  - apply (proj1 ParseAddress_InvalidOption_CZ "Hlavní 1" []); vm_compute; discriminate.
  - apply (proj2 ParseAddress_InvalidOption_CZ " CZ " "Hlavní 1" [] ParsedAddress_zero).
    vm_compute. reflexivity.
Defined.

(** C8, as the code has it: for an address of white space only the two calls
    differ.  Trimmed first it is empty and reported as missing; passed as it
    is, it goes past the test on its length and on to the rules. *)
Theorem ParseAddress_trimmed_blank_address :
  ParseAddress "CZ" (strings.TrimSpace " ") [] =
    Return (ParsedAddress_zero, Some ErrorMissingAddress) /\
  ParseAddress "CZ" " " [] = Return (ParsedAddress_zero, Some ErrorInvalidOption) /\
  ParseAddress "SI" (strings.TrimSpace " ") [] =
    Return (ParsedAddress_zero, Some ErrorMissingAddress) /\
  ParseAddress "SI" " " [] = Panic.
Proof. vm_compute. repeat split. Qed.

(** C9: the configuration has no effect on what [ParseAddress] returns. *)
Theorem ParseAddress_config_irrelevant
    (countryCode address : string) (config config' : list Config) :
  ParseAddress countryCode address config = ParseAddress countryCode address config'.
Proof. reflexivity. Qed.

(** C10: supported country codes and non-empty addresses on which the parser
    panics.  A second line without a space for the one-line-break rule of
    "NL", "BE", "FR", "FI", "AT", "PL", "DK" and for "SK"; a last comma-part
    without a space for "SI" and "HR"; a last line of fewer than two tokens
    for "CZ", with one line break and with two. *)
Theorem ParseAddress_panics :
  Forall (fun countryCode =>
            In countryCode SupportedCountryCodes /\
            ParseAddress countryCode ("Hoofdstraat 1" ++ LF ++ "Amsterdam")%string [] = Panic)
         [nl; be; fr; fi; at'; pl; dk; sk] /\
  Forall (fun countryCode =>
            In countryCode SupportedCountryCodes /\
            ParseAddress countryCode "Ljubljana" [] = Panic)
         [si; hr] /\
  ParseAddress cz ("Hlavní 1" ++ LF ++ "Praha")%string [] = Panic /\
  ParseAddress cz ("Hlavní 1" ++ LF ++ "Praha 1" ++ LF ++ "Praha")%string [] = Panic /\
  ParseAddress sk ("Hlavná 1" ++ LF ++ "Bratislava" ++ LF ++ "Slovensko")%string [] = Panic.
Proof.
  repeat split;
    repeat (apply Forall_cons || apply Forall_nil);
    try (split; [cbn; tauto | vm_compute; reflexivity]);
    vm_compute; reflexivity.
Qed.

(** The panics above are not tied to the sample texts.  Whenever the second
    of two lines has no space, the one-line-break rule indexes the second
    element of a slice that has one. *)
Lemma ParseAddress_second_line_one_token
    (countryCode address line1 line2 token : string) (config : list Config) :
  In countryCode [nl; be; fr; fi; at'; pl; dk] ->
  strings.Split (strings.TrimSpace address) LF = [line1; line2] ->
  strings.Split line2 " " = [token] ->
  ParseAddress countryCode address config = Panic.
Proof.
  intros Hin Hlines Htoken.
  assert (Ha : address <> "") by (intros ->; discriminate Hlines).
  pose proof (Split_two _ _ _ _ Hlines) as Hn.
  unfold ParseAddress. rewrite (len_nonempty _ Ha). cbv zeta.
  rewrite Hn, Hlines.
  repeat (destruct Hin as [<-|Hin];
          [ dispatch; change (1 =? 1) with true; cbn [andb];
            rewrite index_second, index_head; cbn [bind];
            rewrite Htoken, index_head, index_single; reflexivity |]).
  destruct Hin.
Qed.

(** The same for "CZ": a last line of one token leaves no two tokens to slice
    off its end. *)
Lemma ParseAddress_CZ_last_line_one_token
    (address line1 line2 token : string) (config : list Config) :
  strings.Split (strings.TrimSpace address) LF = [line1; line2] ->
  strings.Split (strings.TrimSpace line2) " " = [token] ->
  ParseAddress cz address config = Panic.
Proof.
  intros Hlines Htoken.
  assert (Ha : address <> "") by (intros ->; discriminate Hlines).
  pose proof (Split_two _ _ _ _ Hlines) as Hn.
  unfold ParseAddress. rewrite (len_nonempty _ Ha). cbv zeta.
  rewrite Hn, Hlines. dispatch. change (1 =? 1) with true.
  change (index [line1; line2] (len [line1; line2] - 1)) with (index [line1; line2] 1).
  rewrite index_head, index_second. cbn [bind]. rewrite Htoken. reflexivity.
Qed.

(** And for "SI" and "HR": an address on one line without a comma and
    without a space is a single token. *)
Lemma ParseAddress_SI_HR_one_token
    (countryCode address token : string) (config : list Config) :
  In countryCode [si; hr] ->
  address <> "" ->
  strings.Count (strings.TrimSpace address) LF = 0 ->
  strings.Split (strings.TrimSpace address) "," = [strings.TrimSpace address] ->
  strings.Split (strings.TrimSpace address) " " = [token] ->
  ParseAddress countryCode address config = Panic.
Proof.
  intros Hin Ha Hn Hparts Htoken.
  unfold ParseAddress. rewrite (len_nonempty _ Ha). cbv zeta.
  rewrite Hn, Hparts.
  change (index [strings.TrimSpace address] (len [strings.TrimSpace address] - 1))
    with (index [strings.TrimSpace address] 0).
  change (len [strings.TrimSpace address] =? 3) with false.
  rewrite index_head. cbn [bind]. rewrite Htoken.
  destruct Hin as [<-|[<-|[]]]; reflexivity.
Qed.

(** * Further facts about the library model *)

Section TokenFacts.

Lemma CutPrefix_app (s prefix rest t : string) :
  strings.CutPrefix s prefix = Some rest ->
  strings.CutPrefix (s ++ t) prefix = Some (rest ++ t)%string.
Proof.
  intros H. apply CutPrefix_Some in H. subst s.
  apply CutPrefix_Some. apply append_assoc.
Qed.

(** [strings.Cut] finds an instance of [sep] wherever there is one. *)
Lemma Cut_complete (x sep y : string) : strings.Cut (x ++ sep ++ y) sep <> None.
Proof.
  induction x as [|c x IH]; cbn [append].
  - assert (H : strings.CutPrefix (sep ++ y) sep = Some y) by now apply CutPrefix_Some.
    destruct (sep ++ y)%string; cbn [strings.Cut]; rewrite H; discriminate.
  - cbn [strings.Cut].
    destruct (strings.CutPrefix (String c (x ++ sep ++ y)) sep); [discriminate|].
    destruct (strings.Cut (x ++ sep ++ y) sep) as [[b a]|]; [discriminate | contradiction].
Qed.

Lemma Cut_None_infix (l m r sep : string) :
  strings.Cut (l ++ m ++ r) sep = None -> strings.Cut m sep = None.
Proof.
  intros H. destruct (strings.Cut m sep) as [[b a]|] eqn:E; [|reflexivity].
  apply Cut_Some in E. subst m. exfalso.
  apply (Cut_complete (l ++ b) sep (a ++ r)).
  rewrite <- H. f_equal. now rewrite !append_assoc.
Qed.

(** The text before the first instance of [sep] holds no instance. *)
Lemma Cut_before (s sep before after : string) :
  sep <> "" -> strings.Cut s sep = Some (before, after) -> strings.Cut before sep = None.
Proof.
  intros Hsep. revert before.
  induction s as [|c s IH]; intros before; cbn [strings.Cut].
  - destruct (strings.CutPrefix "" sep) as [r|] eqn:E; [|discriminate].
    destruct sep; [contradiction | discriminate E].
  - destruct (strings.CutPrefix (String c s) sep) as [r|] eqn:E.
    + intros [= <- <-]. destruct sep; [contradiction | reflexivity].
    + destruct (strings.Cut s sep) as [[b a]|] eqn:Ec; [|discriminate].
      intros [= <- <-]. cbn [strings.Cut]. rewrite (IH b eq_refl).
      destruct (strings.CutPrefix (String c b) sep) as [r|] eqn:E'; [|reflexivity].
      apply Cut_Some in Ec. subst s.
      apply (CutPrefix_app _ _ _ (sep ++ a)%string) in E'.
      cbn [append] in E'. congruence.
Qed.

Lemma Count_zero (s sep : string) :
  sep <> "" -> (strings.Count s sep = 0 <-> strings.Cut s sep = None).
Proof.
  intros Hsep. unfold strings.Count. destruct s as [|c s].
  - cbn. destruct sep; [contradiction|]. split; reflexivity.
  - cbn [String.length strings.countLoop].
    destruct (strings.Cut (String c s) sep) as [[b a]|]; split;
      intros H; try reflexivity; try discriminate H; lia.
Qed.

(** No element of [strings.Split s sep] holds an instance of [sep]. *)
Lemma splitLoop_tokens (fuel : nat) (s sep token : string) :
  sep <> "" -> (String.length s <= fuel)%nat ->
  In token (strings.splitLoop fuel s sep) -> strings.Cut token sep = None.
Proof.
  intros Hsep. revert s. induction fuel as [|fuel IH]; intros s Hlen; cbn [strings.splitLoop].
  - assert (s = "") as -> by (apply length_zero; lia).
    intros [<-|[]]. destruct sep; [contradiction | reflexivity].
  - destruct (strings.Cut s sep) as [[before after]|] eqn:E.
    + intros [<-|Hin].
      * now apply (Cut_before s sep before after).
      * apply (IH after); [|assumption].
        apply Cut_shorter in E; [lia | assumption].
    + intros [<-|[]]. assumption.
Qed.

Lemma Split_tokens (s sep token : string) :
  sep <> "" -> In token (strings.Split s sep) -> strings.Count token sep = 0.
Proof.
  intros Hsep Hin. apply Count_zero; [assumption|].
  apply (splitLoop_tokens (String.length s) s); auto.
Qed.

Lemma Split_nonempty (s sep : string) : strings.Split s sep <> [].
Proof.
  unfold strings.Split. destruct (String.length s); cbn [strings.splitLoop];
    [discriminate|]. destruct (strings.Cut s sep) as [[b a]|]; discriminate.
Qed.

(** [strings.TrimSpace] returns a piece of its argument. *)
Lemma trimLeftLoop_suffix (fuel : nat) (s : string) :
  exists l, s = (l ++ strings.trimLeftLoop fuel s)%string.
Proof.
  revert s. induction fuel as [|fuel IH]; intros s; cbn [strings.trimLeftLoop].
  - now exists "".
  - destruct (strings.cutLeadingSpace s) as [rest|] eqn:E; [|now exists ""].
    destruct (cutLeadingSpace_Some _ _ E) as (e & _ & ->).
    destruct (IH rest) as (l & Hl). exists (e ++ l)%string.
    rewrite append_assoc. now rewrite <- Hl.
Qed.

Lemma TrimSpace_infix (s : string) :
  exists l r, s = (l ++ strings.TrimSpace s ++ r)%string.
Proof.
  unfold strings.TrimSpace, strings.TrimRightSpace.
  destruct (trimLeftLoop_suffix (String.length s) s) as (l & Hl).
  fold (strings.TrimLeftSpace s) in Hl.
  destruct (trimRightLoop_prefix (String.length (strings.TrimLeftSpace s))
              (strings.TrimLeftSpace s)) as (r & Hr).
  exists l, r. rewrite <- Hr. exact Hl.
Qed.

Lemma TrimSpace_Count_zero (s sep : string) :
  sep <> "" -> strings.Count s sep = 0 -> strings.Count (strings.TrimSpace s) sep = 0.
Proof.
  intros Hsep H. apply Count_zero in H; [|assumption]. apply Count_zero; [assumption|].
  destruct (TrimSpace_infix s) as (l & r & Hs). rewrite Hs in H.
  now apply Cut_None_infix in H.
Qed.

(** Replacing a text that holds a space changes nothing in a text without
    one. *)
Lemma Replace_without_space (s old1 old2 new : string) (n : Z) :
  strings.Count s " " = 0 ->
  strings.Replace s (old1 ++ " " ++ old2) new n = s.
Proof.
  intros H. apply Count_zero in H; [|discriminate].
  assert (Hc : strings.Cut s (old1 ++ " " ++ old2) = None).
  { destruct (strings.Cut s (old1 ++ " " ++ old2)) as [[b a]|] eqn:E; [|reflexivity].
    apply Cut_Some in E. exfalso.
    apply (Cut_complete (b ++ old1) " " (old2 ++ a)).
    rewrite <- H. f_equal. rewrite E. now rewrite !append_assoc. }
  unfold strings.Replace.
  destruct (if n <? 0 then String.length s else Z.to_nat n);
    cbn [strings.replaceLoop]; [reflexivity | now rewrite Hc].
Qed.

(** A single byte occurs in a concatenation only if it occurs in a part. *)
Lemma Cut_byte_app (x y : string) (c : ascii) :
  strings.Cut x (String c "") = None -> strings.Cut y (String c "") = None ->
  strings.Cut (x ++ y) (String c "") = None.
Proof.
  intros Hx Hy. induction x as [|a x IH]; [exact Hy|].
  cbn [append strings.Cut strings.CutPrefix] in *.
  destruct (Ascii.eqb a c); [discriminate Hx|].
  destruct (strings.Cut x (String c "")) as [[b r]|]; [discriminate Hx|].
  now rewrite IH.
Qed.

Lemma Join_Count_zero (elems : list string) :
  (forall e, In e elems -> strings.Count e " " = 0) ->
  strings.Count (strings.Join elems "") " " = 0.
Proof.
  intros H. apply Count_zero; [discriminate|]. unfold strings.Join.
  induction elems as [|e elems IH]; [reflexivity|].
  assert (He : strings.Cut e " " = None)
    by (apply Count_zero; [discriminate | apply H; now left]).
  assert (IH' : strings.Cut (String.concat "" elems) " " = None)
    by (apply IH; intros e' Hin; apply H; now right).
  destruct elems as [|e' elems]; [exact He|].
  change (String.concat "" (e :: e' :: elems))
    with (e ++ "" ++ String.concat "" (e' :: elems))%string.
  cbn [append]. now apply Cut_byte_app.
Qed.

End TokenFacts.

(** * Further facts about indexing and slicing *)

Section SliceFacts.

Context {A : Type}.
Local Open Scope list_scope.

Lemma index_In (a : list A) (i : Z) (x : A) : index a i = Return x -> In x a.
Proof.
  unfold index. destruct ((0 <=? i) && (i <? len a)); [|discriminate].
  destruct (nth_error a (Z.to_nat i)) as [y|] eqn:E; [|discriminate].
  intros [= <-]. now apply nth_error_In in E.
Qed.

Lemma index_first (a : list A) (d : A) : a <> [] -> index a 0 = Return (hd d a).
Proof. destruct a as [|x a]; [contradiction | reflexivity]. Qed.

Lemma index_last (a : list A) (d : A) : a <> [] -> index a (len a - 1) = Return (last a d).
Proof.
  intros Ha. destruct (exists_last Ha) as (front & x & ->).
  rewrite last_last. unfold index, len, Len_slice. rewrite length_app. cbn [List.length].
  replace (Z.of_nat (List.length front + 1) - 1) with (Z.of_nat (List.length front)) by lia.
  replace (0 <=? Z.of_nat (List.length front)) with true by (symmetry; apply Z.leb_le; lia).
  replace (Z.of_nat (List.length front) <? Z.of_nat (List.length front + 1)) with true
    by (symmetry; apply Z.ltb_lt; lia).
  cbn [andb]. rewrite Nat2Z.id, nth_error_app2 by lia.
  now rewrite Nat.sub_diag.
Qed.

Lemma slice_In (a b : list A) (lo hi : Z) (x : A) :
  slice a lo hi = Return b -> In x b -> In x a.
Proof.
  unfold slice. destruct ((0 <=? lo) && (lo <=? hi) && (hi <=? len a)); [|discriminate].
  intros [= <-] Hin.
  rewrite <- (firstn_skipn (Z.to_nat lo) a). apply in_or_app. right.
  rewrite <- (firstn_skipn (Z.to_nat (hi - lo)) (skipn (Z.to_nat lo) a)).
  apply in_or_app. now left.
Qed.

(** The two slice expressions of the rule for "CZ", on a slice of at least
    two elements and on a shorter one. *)
Lemma slice_all_but_two (front : list A) (x y : A) :
  slice (front ++ [x; y]) 0 (len (front ++ [x; y]) - 2) = Return front.
Proof.
  unfold slice, len, Len_slice. rewrite length_app. cbn [List.length].
  replace (Z.of_nat (List.length front + 2) - 2) with (Z.of_nat (List.length front)) by lia.
  replace (0 <=? Z.of_nat (List.length front)) with true by (symmetry; apply Z.leb_le; lia).
  replace (Z.of_nat (List.length front) <=? Z.of_nat (List.length front + 2)) with true
    by (symmetry; apply Z.leb_le; lia).
  cbn [andb Z.leb Z.compare Z.to_nat skipn]. rewrite Z.sub_0_r, Nat2Z.id.
  f_equal. rewrite firstn_app, Nat.sub_diag, firstn_all. cbn [firstn]. apply app_nil_r.
Qed.

Lemma slice_second_to_last (front : list A) (x y : A) :
  slice (front ++ [x; y]) (len (front ++ [x; y]) - 2) (len (front ++ [x; y]) - 1) =
  Return [x].
Proof.
  unfold slice, len, Len_slice. rewrite length_app. cbn [List.length].
  set (n := List.length front).
  replace (Z.of_nat (n + 2) - 2) with (Z.of_nat n) by lia.
  replace (Z.of_nat (n + 2) - 1) with (Z.of_nat n + 1) by lia.
  replace (0 <=? Z.of_nat n) with true by (symmetry; apply Z.leb_le; lia).
  replace (Z.of_nat n <=? Z.of_nat n + 1) with true by (symmetry; apply Z.leb_le; lia).
  replace (Z.of_nat n + 1 <=? Z.of_nat (n + 2)) with true by (symmetry; apply Z.leb_le; lia).
  cbn [andb]. replace (Z.of_nat n + 1 - Z.of_nat n) with 1 by lia.
  rewrite Nat2Z.id. unfold n. rewrite skipn_app, Nat.sub_diag, skipn_all.
  reflexivity.
Qed.

Lemma slice_single (x : A) (hi : Z) : slice [x] (len [x] - 2) hi = Panic.
Proof. reflexivity. Qed.

Lemma slice_single_front (x : A) : slice [x] 0 (len [x] - 2) = Panic.
Proof. reflexivity. Qed.

(** A slice of two elements or more ends with two of them. *)
Lemma two_last (a : list A) :
  (2 <= List.length a)%nat -> exists front x y, a = front ++ [x; y].
Proof.
  intros H.
  assert (Hne : a <> []) by (intros ->; simpl in H; lia).
  destruct (exists_last Hne) as (l & y & Ha). subst a.
  rewrite length_app in H. cbn [List.length] in H.
  assert (Hne' : l <> []) by (intros ->; simpl in H; lia).
  destruct (exists_last Hne') as (front & x & Hl). subst l.
  exists front, x, y. now rewrite <- app_assoc.
Qed.

End SliceFacts.

(** * Further properties of the parser *)

Lemma Contains_In (s : list string) (v : string) :
  slices.Contains s v = true <-> In v s.
Proof.
  unfold slices.Contains. rewrite existsb_exists. split.
  - intros (x & Hin & E). apply String.eqb_eq in E. now subst.
  - intros Hin. exists v. split; [assumption | apply String.eqb_refl].
Qed.

(** X1: [ErrorMissingCountryCode] is returned exactly when the country code
    passed is the empty string, and [ErrorMissingAddress] exactly when the
    country code is not empty and the address passed is; the result is the
    zero value.  White space only is never reported as missing. *)
Theorem ParseAddress_missing_arguments
    (countryCode address : string) (config : list Config) (parsed : ParsedAddress) :
  (ParseAddress countryCode address config = Return (parsed, Some ErrorMissingCountryCode)
   <-> countryCode = "" /\ parsed = ParsedAddress_zero) /\
  (ParseAddress countryCode address config = Return (parsed, Some ErrorMissingAddress)
   <-> countryCode <> "" /\ address = "" /\ parsed = ParsedAddress_zero).
Proof.
  split; [apply ParseAddress_MissingCountryCode_iff | apply ParseAddress_MissingAddress_iff].
Qed.

(** X2: [ErrorUnsupportedCountryCode] is returned exactly when both
    arguments are non-empty and the trimmed country code is none of the
    sixteen supported codes; the result is the zero value. *)
Theorem ParseAddress_UnsupportedCountryCode_iff
    (countryCode address : string) (config : list Config) (parsed : ParsedAddress) :
  ParseAddress countryCode address config =
    Return (parsed, Some ErrorUnsupportedCountryCode)
  <-> countryCode <> "" /\ address <> "" /\
      ~ In (strings.TrimSpace countryCode) SupportedCountryCodes /\
      parsed = ParsedAddress_zero.
Proof.
  split.
  - intros H. unfold ParseAddress in H. cbv zeta in H.
    destruct (len countryCode =? 0) eqn:Ecc; [discriminate H|].
    destruct (len address =? 0) eqn:Ea; [discriminate H|].
    destruct (slices.Contains SupportedCountryCodes (strings.TrimSpace countryCode))
      eqn:Es; cbn [negb] in H.
    + follow H.
    + injection H as <-. repeat split.
      * intros ->. discriminate Ecc.
      * intros ->. discriminate Ea.
      * intros Hin. apply Contains_In in Hin. congruence.
  - intros (Hcc & Ha & Hs & ->). unfold ParseAddress.
    rewrite (len_nonempty _ Hcc), (len_nonempty _ Ha). cbv zeta.
    destruct (slices.Contains SupportedCountryCodes (strings.TrimSpace countryCode))
      eqn:Es; [|reflexivity].
    apply Contains_In in Es. contradiction.
Qed.

(** X3: [ErrorInvalidOption] is returned exactly when the address passed is
    non-empty, the trimmed country code is "CZ" and the trimmed address has
    neither one nor two line breaks; the result is the zero value. *)
Theorem ParseAddress_InvalidOption_iff
    (countryCode address : string) (config : list Config) (parsed : ParsedAddress) :
  ParseAddress countryCode address config = Return (parsed, Some ErrorInvalidOption)
  <-> address <> "" /\ strings.TrimSpace countryCode = "CZ" /\
      strings.Count (strings.TrimSpace address) LF <> 1 /\
      strings.Count (strings.TrimSpace address) LF <> 2 /\
      parsed = ParsedAddress_zero.
Proof.
  split.
  - intros H. unfold ParseAddress in H. cbv zeta in H.
    destruct (len countryCode =? 0) eqn:Ecc; [discriminate H|].
    destruct (len address =? 0) eqn:Ea; [discriminate H|].
    assert (Ha : address <> "") by (intros ->; discriminate Ea).
    follow H; injection H as <-;
      repeat match goal with
             | E : (_ =? _) = false |- _ => apply Z.eqb_neq in E
             | E : String.eqb _ cz = true |- _ => apply String.eqb_eq in E
             end;
      auto.
  - intros (Ha & Hc & H1 & H2 & ->).
    assert (Hcc : countryCode <> "") by (intros ->; discriminate Hc).
    unfold ParseAddress. rewrite (len_nonempty _ Hcc), (len_nonempty _ Ha). cbv zeta.
    rewrite Hc. apply Z.eqb_neq in H1, H2. rewrite H1, H2. dispatch. reflexivity.
Qed.

(** X4: whenever [ParseAddress] returns an error, the [ParsedAddress] beside
    it is the zero value. *)
Theorem ParseAddress_error_zero
    (countryCode address : string) (config : list Config)
    (parsed : ParsedAddress) (err : error) :
  ParseAddress countryCode address config = Return (parsed, Some err) ->
  parsed = ParsedAddress_zero.
Proof.
  intros H. unfold ParseAddress in H. cbv zeta in H.
  follow H; injection H as <- _; reflexivity.
Qed.

Lemma ParseAddress_error_zero_witness :
  ParseAddress "XX" "Hlavná 1" [] =
    Return ({| Street := ""; City := ""; Zip := "" |}, Some ErrorUnsupportedCountryCode) /\
  {| Street := ""; City := ""; Zip := "" |} = ParsedAddress_zero.
Proof.
  split; [vm_compute; reflexivity|].
  apply (ParseAddress_error_zero "XX" "Hlavná 1" [] _ ErrorUnsupportedCountryCode).
  vm_compute. reflexivity.
Defined.

Lemma ParseAddress_no_error
    (countryCode address : string) (config : list Config) (parsed : ParsedAddress) :
  ParseAddress countryCode address config = Return (parsed, None) ->
  countryCode <> "" /\ address <> "" /\
  slices.Contains SupportedCountryCodes (strings.TrimSpace countryCode) = true.
Proof.
  intros H. unfold ParseAddress in H. cbv zeta in H.
  destruct (len countryCode =? 0) eqn:Ecc; [discriminate H|].
  destruct (len address =? 0) eqn:Ea; [discriminate H|].
  destruct (slices.Contains SupportedCountryCodes (strings.TrimSpace countryCode))
    eqn:Es; cbn [negb] in H; [|discriminate H].
  repeat split.
  - intros ->. discriminate Ecc.
  - intros ->. discriminate Ea.
Qed.

(** X5: [ParseAddress] returns without an error only when both arguments
    are non-empty and the trimmed country code is a supported one. *)
Theorem ParseAddress_success_supported
    (countryCode address : string) (config : list Config) (parsed : ParsedAddress) :
  ParseAddress countryCode address config = Return (parsed, None) ->
  countryCode <> "" /\ address <> "" /\
  In (strings.TrimSpace countryCode) SupportedCountryCodes.
Proof.
  intros H. apply ParseAddress_no_error in H. destruct H as (Hc & Ha & Hs).
  repeat split; [assumption | assumption | now apply Contains_In].
Qed.

Lemma ParseAddress_success_supported_witness :
  " NL " <> "" /\ ("Hoofdstraat 1" ++ LF ++ "1234 AB Amsterdam")%string <> "" /\
  In (strings.TrimSpace " NL ") SupportedCountryCodes.
Proof.
  apply (ParseAddress_success_supported " NL "
           ("Hoofdstraat 1" ++ LF ++ "1234 AB Amsterdam")%string []
           {| Street := "Hoofdstraat 1"; City := "AB"; Zip := "1234" |}).
  vm_compute. reflexivity.
Defined.

(** X6: white space around either argument does not change the outcome, as
    long as neither argument is white space only. *)
Theorem ParseAddress_trimmed_arguments
    (countryCode address : string) (config : list Config) :
  strings.TrimSpace countryCode <> "" -> strings.TrimSpace address <> "" ->
  ParseAddress (strings.TrimSpace countryCode) (strings.TrimSpace address) config =
  ParseAddress countryCode address config.
Proof.
  intros Hc Ha. rewrite (ParseAddress_TrimSpace_address _ _ _ Ha).
  pose proof (TrimSpace_nonempty _ Hc) as Hcc.
  unfold ParseAddress. rewrite (len_nonempty _ Hc), (len_nonempty _ Hcc).
  rewrite TrimSpace_idempotent. reflexivity.
Qed.

Lemma ParseAddress_trimmed_arguments_witness :
  ParseAddress (strings.TrimSpace " NL ")
    (strings.TrimSpace (LF ++ "Hoofdstraat 1" ++ LF ++ "1234 AB Amsterdam  ")%string) [] =
  ParseAddress " NL " (LF ++ "Hoofdstraat 1" ++ LF ++ "1234 AB Amsterdam  ")%string [].
Proof.
  apply ParseAddress_trimmed_arguments; vm_compute; discriminate.
Defined.

(** X7: for the supported codes "PT", "IT", "RO", "EL" and "EE" every
    non-empty address is answered with the zero value and no error,
    whatever its shape. *)
Theorem ParseAddress_codes_without_rule
    (countryCode address : string) (config : list Config) :
  In (strings.TrimSpace countryCode) [pt; it; ro; el; ee] -> address <> "" ->
  ParseAddress countryCode address config = Return (ParsedAddress_zero, None).
Proof.
  intros Hin Ha.
  assert (Hcc : countryCode <> "")
    by (intros ->; vm_compute in Hin; intuition discriminate).
  unfold ParseAddress. rewrite (len_nonempty _ Hcc), (len_nonempty _ Ha). cbv zeta.
  generalize (strings.Count (strings.TrimSpace address) LF) as n. intros n.
  remember (strings.TrimSpace countryCode) as c eqn:Ec. clear Ec.
  repeat (destruct Hin as [<-|Hin]; [dispatch; reflexivity|]).
  destruct Hin.
Qed.

Lemma ParseAddress_codes_without_rule_witness :
  ParseAddress " IT " ("Via Roma 1" ++ LF ++ "00100 Roma")%string [] =
  Return (ParsedAddress_zero, None).
Proof.
  apply ParseAddress_codes_without_rule; [vm_compute; tauto | discriminate].
Defined.

(** X8: for "NL", "BE", "FR", "FI", "AT", "PL" and "DK" an address whose
    trimmed text has not exactly one line break, and for "SI" and "HR" an
    address whose trimmed text has a line break, is answered with the zero
    value and no error. *)
Theorem ParseAddress_other_shapes
    (countryCode address : string) (config : list Config) :
  address <> "" ->
  (In (strings.TrimSpace countryCode) [nl; be; fr; fi; at'; pl; dk] /\
   strings.Count (strings.TrimSpace address) LF <> 1) \/
  (In (strings.TrimSpace countryCode) [si; hr] /\
   strings.Count (strings.TrimSpace address) LF <> 0) ->
  ParseAddress countryCode address config = Return (ParsedAddress_zero, None).
Proof.
  intros Ha Hcase.
  assert (Hcc : countryCode <> "").
  { intros ->. destruct Hcase as [[Hin _]|[Hin _]];
      vm_compute in Hin; intuition discriminate. }
  unfold ParseAddress. rewrite (len_nonempty _ Hcc), (len_nonempty _ Ha). cbv zeta.
  revert Hcase.
  generalize (strings.Count (strings.TrimSpace address) LF) as n.
  remember (strings.TrimSpace countryCode) as c eqn:Ec. clear Ec.
  intros n [[Hin Hn]|[Hin Hn]]; apply Z.eqb_neq in Hn.
  - repeat (destruct Hin as [<-|Hin]; [rewrite Hn; dispatch; reflexivity|]).
    destruct Hin.
  - repeat (destruct Hin as [<-|Hin]; [rewrite Hn; dispatch; reflexivity|]).
    destruct Hin.
Qed.

Lemma ParseAddress_other_shapes_witness :
  ParseAddress "NL" "Hoofdstraat 1, 1234 AB Amsterdam" [] =
    Return (ParsedAddress_zero, None) /\
  ParseAddress "SI" ("Neka ulica 5" ++ LF ++ "1000 Ljubljana")%string [] =
    Return (ParsedAddress_zero, None).
Proof.
  split; apply ParseAddress_other_shapes; try discriminate.
  - left. split; [vm_compute; tauto | vm_compute; discriminate].
  - right. split; [vm_compute; tauto | vm_compute; discriminate].
Defined.

(** ** The rules, country by country *)

Lemma Split_three (s sep first second third : string) :
  strings.Split s sep = [first; second; third] -> strings.Count s sep = 2.
Proof.
  intros H. pose proof (Split_len s sep) as Hlen. rewrite H in Hlen.
  unfold len at 1, Len_slice in Hlen. cbn [List.length] in Hlen. lia.
Qed.

Lemma index_third {A : Type} (x y z : A) (l : list A) :
  index (x :: y :: z :: l) 2 = Return z.
Proof.
  unfold index, len, Len_slice. cbn [List.length].
  replace (2 <? Z.of_nat (S (S (S (List.length l))))) with true
    by (symmetry; apply Z.ltb_lt; lia).
  reflexivity.
Qed.

(** The number of tokens of a line, against the number of its spaces. *)
Lemma tokens_one (line token : string) :
  strings.Split line " " = [token] -> strings.Count line " " = 0.
Proof.
  intros H. pose proof (Split_len line " ") as Hlen. rewrite H in Hlen.
  unfold len at 1, Len_slice in Hlen. cbn [List.length] in Hlen. lia.
Qed.

Lemma tokens_two (line first second : string) (tokens : list string) :
  strings.Split line " " = first :: second :: tokens -> strings.Count line " " <> 0.
Proof.
  intros H. pose proof (Split_len line " ") as Hlen. rewrite H in Hlen.
  unfold len at 1, Len_slice in Hlen. cbn [List.length] in Hlen. lia.
Qed.

(** X9: the rule of "NL", "BE", "FR", "FI", "AT", "PL" and "DK" for an
    address of two lines.  It panics exactly when the second line has no
    space; otherwise [Street] is the trimmed first line and [Zip] and [City]
    are the trimmed first and second space-separated tokens of the second
    line, the other tokens being dropped. *)
Theorem ParseAddress_NL_rule
    (countryCode address line1 line2 : string) (config : list Config) :
  In (strings.TrimSpace countryCode) [nl; be; fr; fi; at'; pl; dk] ->
  strings.Split (strings.TrimSpace address) LF = [line1; line2] ->
  (ParseAddress countryCode address config = Panic <-> strings.Count line2 " " = 0) /\
  (forall (zip city : string) (tokens : list string),
     strings.Split line2 " " = zip :: city :: tokens ->
     ParseAddress countryCode address config =
     Return ({| Street := strings.TrimSpace line1;
                City := strings.TrimSpace city;
                Zip := strings.TrimSpace zip |}, None)).
Proof.
  intros Hin Hlines.
  assert (Hcc : countryCode <> "")
    by (intros ->; vm_compute in Hin; intuition discriminate).
  assert (Ha : address <> "") by (intros ->; discriminate Hlines).
  pose proof (Split_two _ _ _ _ Hlines) as Hn.
  assert (Heq : ParseAddress countryCode address config =
                match strings.Split line2 " " with
                | zip :: city :: _ =>
                    Return ({| Street := strings.TrimSpace line1;
                               City := strings.TrimSpace city;
                               Zip := strings.TrimSpace zip |}, None)
                | _ => Panic
                end).
  { unfold ParseAddress. rewrite (len_nonempty _ Hcc), (len_nonempty _ Ha). cbv zeta.
    rewrite Hn, Hlines. remember (strings.TrimSpace countryCode) as c eqn:Ec. clear Ec.
    repeat (destruct Hin as [<-|Hin];
            [ dispatch; change (1 =? 1) with true; cbn [andb];
              rewrite index_second, index_head; cbn [bind];
              destruct (strings.Split line2 " ") as [|z [|c' r]];
              [ reflexivity | reflexivity
              | rewrite index_head, index_second; reflexivity ] |]).
    destruct Hin. }
  split.
  - rewrite Heq. destruct (strings.Split line2 " ") as [|z [|c r]] eqn:Et.
    + now destruct (Split_nonempty line2 " ").
    + split; [intros _; now apply tokens_one in Et | reflexivity].
    + apply tokens_two in Et. split; [discriminate | contradiction].
  - intros zip city tokens Ht. rewrite Heq, Ht. reflexivity.
Qed.

Lemma ParseAddress_NL_rule_witness :
  strings.Split (strings.TrimSpace ("Rue de la Paix 1 " ++ LF ++ "75002 Paris")%string) LF =
    ["Rue de la Paix 1 "; "75002 Paris"] /\
  ParseAddress " FR" ("Rue de la Paix 1 " ++ LF ++ "75002 Paris")%string [] =
    Return ({| Street := "Rue de la Paix 1"; City := "Paris"; Zip := "75002" |}, None).
Proof.
  split; [reflexivity|].
  refine (proj2 (ParseAddress_NL_rule " FR"
                   ("Rue de la Paix 1 " ++ LF ++ "75002 Paris")%string
                   "Rue de la Paix 1 " "75002 Paris" [] _ _)
                "75002" "Paris" [] _).
  - vm_compute. tauto.
  - reflexivity.
  - reflexivity.
Defined.

Lemma district_prefixes (token : string) :
  strings.Count token " " = 0 ->
  strings.Replace (strings.Replace token "mestská časť " "" 1) "m. č. " "" 1 = token.
Proof.
  intros H.
  change "mestská časť " with ("mestská" ++ " " ++ "časť ")%string.
  rewrite (Replace_without_space _ _ _ _ _ H).
  change "m. č. " with ("m." ++ " " ++ "č. ")%string.
  now apply Replace_without_space.
Qed.

(** X10: the rule of "SK" for an address of two lines whose second line is
    not "Slovensko".  It panics exactly when the second line has no space;
    otherwise [Street] is the trimmed first line and [Zip] and [City] are
    the trimmed first and second tokens of the second line.  The district
    prefixes are never removed: they hold a space and a token holds none. *)
Theorem ParseAddress_SK_two_lines
    (countryCode address line1 line2 : string) (config : list Config) :
  strings.TrimSpace countryCode = "SK" ->
  strings.Split (strings.TrimSpace address) LF = [line1; line2] ->
  line2 <> "Slovensko" ->
  (ParseAddress countryCode address config = Panic <-> strings.Count line2 " " = 0) /\
  (forall (zip city : string) (tokens : list string),
     strings.Split line2 " " = zip :: city :: tokens ->
     ParseAddress countryCode address config =
     Return ({| Street := strings.TrimSpace line1;
                City := strings.TrimSpace city;
                Zip := strings.TrimSpace zip |}, None)).
Proof.
  intros Hc Hlines Hline2.
  assert (Hcc : countryCode <> "") by (intros ->; discriminate Hc).
  assert (Ha : address <> "") by (intros ->; discriminate Hlines).
  pose proof (Split_two _ _ _ _ Hlines) as Hn.
  apply String.eqb_neq in Hline2.
  assert (Heq : ParseAddress countryCode address config =
                match strings.Split line2 " " with
                | zip :: city :: _ =>
                    Return ({| Street := strings.TrimSpace line1;
                               City := strings.TrimSpace city;
                               Zip := strings.TrimSpace zip |}, None)
                | _ => Panic
                end).
  { unfold ParseAddress. rewrite (len_nonempty _ Hcc), (len_nonempty _ Ha). cbv zeta.
    rewrite Hc, Hn, Hlines. dispatch. change (1 =? 1) with true.
    change (index [line1; line2] (len [line1; line2] - 1)) with (index [line1; line2] 1).
    rewrite !index_head, !index_second. cbn [bind]. rewrite Hline2. cbn [negb bind].
    destruct (strings.Split line2 " ") as [|z [|c r]] eqn:Et;
      [reflexivity | reflexivity |].
    rewrite index_head, index_second. cbn [bind].
    rewrite district_prefixes, TrimSpace_idempotent; [reflexivity|].
    apply (Split_tokens line2 " "); [discriminate|]. rewrite Et. right. now left. }
  split.
  - rewrite Heq. destruct (strings.Split line2 " ") as [|z [|c r]] eqn:Et.
    + now destruct (Split_nonempty line2 " ").
    + split; [intros _; now apply tokens_one in Et | reflexivity].
    + apply tokens_two in Et. split; [discriminate | contradiction].
  - intros zip city tokens Ht. rewrite Heq, Ht. reflexivity.
Qed.

Lemma ParseAddress_SK_two_lines_witness :
  strings.Split
    (strings.TrimSpace ("Hlavná 1" ++ LF ++ "81101 Bratislava - mestská časť Staré Mesto")%string)
    LF = ["Hlavná 1"; "81101 Bratislava - mestská časť Staré Mesto"] /\
  ParseAddress "SK" ("Hlavná 1" ++ LF ++ "81101 Bratislava - mestská časť Staré Mesto")%string [] =
    Return ({| Street := "Hlavná 1"; City := "Bratislava"; Zip := "81101" |}, None).
Proof.
  split; [reflexivity|].
  refine (proj2 (ParseAddress_SK_two_lines "SK"
                   ("Hlavná 1" ++ LF ++ "81101 Bratislava - mestská časť Staré Mesto")%string
                   "Hlavná 1" "81101 Bratislava - mestská časť Staré Mesto" [] _ _ _)
                "81101" "Bratislava" ["-"; "mestská"; "časť"; "Staré"; "Mesto"] _).
  - reflexivity.
  - reflexivity.
  - discriminate.
  - reflexivity.
Defined.

(** X11: the rule of "SK" for an address of three lines.  It panics exactly
    when the third line has no space, as when it is the country name alone;
    otherwise [Street] is the trimmed first line and [Zip] and [City] are
    the trimmed first and second tokens of the third line.  The second line
    is not read. *)
Theorem ParseAddress_SK_three_lines
    (countryCode address line1 line2 line3 : string) (config : list Config) :
  strings.TrimSpace countryCode = "SK" ->
  strings.Split (strings.TrimSpace address) LF = [line1; line2; line3] ->
  (ParseAddress countryCode address config = Panic <-> strings.Count line3 " " = 0) /\
  (forall (zip city : string) (tokens : list string),
     strings.Split line3 " " = zip :: city :: tokens ->
     ParseAddress countryCode address config =
     Return ({| Street := strings.TrimSpace line1;
                City := strings.TrimSpace city;
                Zip := strings.TrimSpace zip |}, None)).
Proof.
  intros Hc Hlines.
  assert (Hcc : countryCode <> "") by (intros ->; discriminate Hc).
  assert (Ha : address <> "") by (intros ->; discriminate Hlines).
  pose proof (Split_three _ _ _ _ _ Hlines) as Hn.
  assert (Heq : ParseAddress countryCode address config =
                match strings.Split line3 " " with
                | zip :: city :: _ =>
                    Return ({| Street := strings.TrimSpace line1;
                               City := strings.TrimSpace city;
                               Zip := strings.TrimSpace zip |}, None)
                | _ => Panic
                end).
  { unfold ParseAddress. rewrite (len_nonempty _ Hcc), (len_nonempty _ Ha). cbv zeta.
    rewrite Hc, Hn, Hlines. dispatch. change (2 =? 1) with false. change (2 =? 2) with true.
    change (index [line1; line2; line3] (len [line1; line2; line3] - 1))
      with (index [line1; line2; line3] 2).
    rewrite !index_head, !index_third. cbn [bind].
    destruct (strings.Split line3 " ") as [|z [|c r]] eqn:Et;
      [reflexivity | reflexivity |].
    rewrite index_head, index_second. cbn [bind].
    rewrite district_prefixes, TrimSpace_idempotent; [reflexivity|].
    apply (Split_tokens line3 " "); [discriminate|]. rewrite Et. right. now left. }
  split.
  - rewrite Heq. destruct (strings.Split line3 " ") as [|z [|c r]] eqn:Et.
    + now destruct (Split_nonempty line3 " ").
    + split; [intros _; now apply tokens_one in Et | reflexivity].
    + apply tokens_two in Et. split; [discriminate | contradiction].
  - intros zip city tokens Ht. rewrite Heq, Ht. reflexivity.
Qed.

Lemma ParseAddress_SK_three_lines_witness :
  strings.Count "Slovensko" " " = 0 /\
  ParseAddress "SK" ("Hlavná 1" ++ LF ++ "811 01 Bratislava" ++ LF ++ "Slovensko")%string [] =
    Panic.
Proof.
  split; [reflexivity|].
  refine (proj2 (proj1 (ParseAddress_SK_three_lines "SK"
                   ("Hlavná 1" ++ LF ++ "811 01 Bratislava" ++ LF ++ "Slovensko")%string
                   "Hlavná 1" "811 01 Bratislava" "Slovensko" [] _ _)) _);
    reflexivity.
Defined.

(** X12: the rule of "CZ" for an address of two lines.  It panics exactly
    when the trimmed second line has no space; otherwise [Street] is the
    trimmed first line, [City] the token before the last one and [Zip] the
    tokens before that one joined without a separator.  The last token is
    dropped. *)
Theorem ParseAddress_CZ_two_lines
    (countryCode address line1 line2 : string) (config : list Config) :
  strings.TrimSpace countryCode = "CZ" ->
  strings.Split (strings.TrimSpace address) LF = [line1; line2] ->
  (ParseAddress countryCode address config = Panic
   <-> strings.Count (strings.TrimSpace line2) " " = 0) /\
  (forall (front : list string) (city final : string),
     strings.Split (strings.TrimSpace line2) " " = (front ++ [city; final])%list ->
     ParseAddress countryCode address config =
     Return ({| Street := strings.TrimSpace line1;
                City := strings.TrimSpace city;
                Zip := strings.TrimSpace (strings.Join front "") |}, None)).
Proof.
  intros Hc Hlines.
  assert (Hcc : countryCode <> "") by (intros ->; discriminate Hc).
  assert (Ha : address <> "") by (intros ->; discriminate Hlines).
  pose proof (Split_two _ _ _ _ Hlines) as Hn.
  assert (Heq : ParseAddress countryCode address config =
                let lastParts := strings.Split (strings.TrimSpace line2) " " in
                cityParts <- slice lastParts (len lastParts - 2) (len lastParts - 1) ;;
                zipParts <- slice lastParts 0 (len lastParts - 2) ;;
                Return ({| Street := strings.TrimSpace line1;
                           City := strings.TrimSpace (strings.Join cityParts "");
                           Zip := strings.TrimSpace (strings.Join zipParts "") |}, None)).
  { unfold ParseAddress. rewrite (len_nonempty _ Hcc), (len_nonempty _ Ha). cbv zeta.
    rewrite Hc, Hn, Hlines. dispatch. change (1 =? 1) with true.
    change (index [line1; line2] (len [line1; line2] - 1)) with (index [line1; line2] 1).
    rewrite !index_head, !index_second. reflexivity. }
  assert (Hrule : forall (front : list string) (city final : string),
            strings.Split (strings.TrimSpace line2) " " = (front ++ [city; final])%list ->
            ParseAddress countryCode address config =
            Return ({| Street := strings.TrimSpace line1;
                       City := strings.TrimSpace city;
                       Zip := strings.TrimSpace (strings.Join front "") |}, None)).
  { intros front city final Ht. rewrite Heq. cbv zeta. rewrite Ht.
    rewrite slice_second_to_last, slice_all_but_two. reflexivity. }
  split; [|exact Hrule].
  pose proof (Split_len (strings.TrimSpace line2) " ") as Hlen.
  unfold len at 1, Len_slice in Hlen.
  destruct (strings.Split (strings.TrimSpace line2) " ") as [|t [|t' r]] eqn:Et.
  - now destruct (Split_nonempty (strings.TrimSpace line2) " ").
  - cbn [List.length] in Hlen. split; [lia|]. intros _.
    rewrite Heq. reflexivity.
  - cbn [List.length] in Hlen.
    destruct (two_last (t :: t' :: r)) as (front & x & y & Hf); [cbn; lia|].
    rewrite (Hrule front x y Hf). split; [discriminate | lia].
Qed.

Lemma ParseAddress_CZ_two_lines_witness :
  strings.Split (strings.TrimSpace "110 00 Praha 1") " " = (["110"; "00"] ++ ["Praha"; "1"])%list /\
  ParseAddress "CZ" ("Hlavní 1" ++ LF ++ "110 00 Praha 1")%string [] =
    Return ({| Street := "Hlavní 1"; City := "Praha"; Zip := "11000" |}, None).
Proof.
  split; [reflexivity|].
  refine (proj2 (ParseAddress_CZ_two_lines "CZ"
                   ("Hlavní 1" ++ LF ++ "110 00 Praha 1")%string
                   "Hlavní 1" "110 00 Praha 1" [] _ _)
                ["110"; "00"] "Praha" "1" _);
    reflexivity.
Defined.

(** X13: the rule of "CZ" for an address of three lines.  It panics exactly
    when the trimmed third line has no space; otherwise [Street] is the
    trimmed first line, [City] the trimmed second line as a whole, and [Zip]
    the tokens of the third line but its last two, joined without a
    separator. *)
Theorem ParseAddress_CZ_three_lines
    (countryCode address line1 line2 line3 : string) (config : list Config) :
  strings.TrimSpace countryCode = "CZ" ->
  strings.Split (strings.TrimSpace address) LF = [line1; line2; line3] ->
  (ParseAddress countryCode address config = Panic
   <-> strings.Count (strings.TrimSpace line3) " " = 0) /\
  (forall (front : list string) (token final : string),
     strings.Split (strings.TrimSpace line3) " " = (front ++ [token; final])%list ->
     ParseAddress countryCode address config =
     Return ({| Street := strings.TrimSpace line1;
                City := strings.TrimSpace line2;
                Zip := strings.TrimSpace (strings.Join front "") |}, None)).
Proof.
  intros Hc Hlines.
  assert (Hcc : countryCode <> "") by (intros ->; discriminate Hc).
  assert (Ha : address <> "") by (intros ->; discriminate Hlines).
  pose proof (Split_three _ _ _ _ _ Hlines) as Hn.
  assert (Heq : ParseAddress countryCode address config =
                let lastParts := strings.Split (strings.TrimSpace line3) " " in
                zipParts <- slice lastParts 0 (len lastParts - 2) ;;
                Return ({| Street := strings.TrimSpace line1;
                           City := strings.TrimSpace line2;
                           Zip := strings.TrimSpace (strings.Join zipParts "") |}, None)).
  { unfold ParseAddress. rewrite (len_nonempty _ Hcc), (len_nonempty _ Ha). cbv zeta.
    rewrite Hc, Hn, Hlines. dispatch. change (2 =? 1) with false. change (2 =? 2) with true.
    change (index [line1; line2; line3] (len [line1; line2; line3] - 1))
      with (index [line1; line2; line3] 2).
    rewrite !index_head, !index_second, !index_third. reflexivity. }
  assert (Hrule : forall (front : list string) (token final : string),
            strings.Split (strings.TrimSpace line3) " " = (front ++ [token; final])%list ->
            ParseAddress countryCode address config =
            Return ({| Street := strings.TrimSpace line1;
                       City := strings.TrimSpace line2;
                       Zip := strings.TrimSpace (strings.Join front "") |}, None)).
  { intros front token final Ht. rewrite Heq. cbv zeta. rewrite Ht.
    rewrite slice_all_but_two. reflexivity. }
  split; [|exact Hrule].
  pose proof (Split_len (strings.TrimSpace line3) " ") as Hlen.
  unfold len at 1, Len_slice in Hlen.
  destruct (strings.Split (strings.TrimSpace line3) " ") as [|t [|t' r]] eqn:Et.
  - now destruct (Split_nonempty (strings.TrimSpace line3) " ").
  - cbn [List.length] in Hlen. split; [lia|]. intros _.
    rewrite Heq. reflexivity.
  - cbn [List.length] in Hlen.
    destruct (two_last (t :: t' :: r)) as (front & x & y & Hf); [cbn; lia|].
    rewrite (Hrule front x y Hf). split; [discriminate | lia].
Qed.

Lemma ParseAddress_CZ_three_lines_witness :
  strings.Split (strings.TrimSpace "110 00 Praha 1") " " = (["110"; "00"] ++ ["Praha"; "1"])%list /\
  ParseAddress "CZ" ("Hlavní 1" ++ LF ++ "Staré Město" ++ LF ++ "110 00 Praha 1")%string [] =
    Return ({| Street := "Hlavní 1"; City := "Staré Město"; Zip := "11000" |}, None).
Proof.
  split; [reflexivity|].
  refine (proj2 (ParseAddress_CZ_three_lines "CZ"
                   ("Hlavní 1" ++ LF ++ "Staré Město" ++ LF ++ "110 00 Praha 1")%string
                   "Hlavní 1" "Staré Město" "110 00 Praha 1" [] _ _)
                ["110"; "00"] "Praha" "1" _);
    reflexivity.
Defined.

Lemma index_nth {A : Type} (a : list A) (i : nat) (d : A) :
  (i < List.length a)%nat -> index a (Z.of_nat i) = Return (nth i a d).
Proof.
  intros H. unfold index, len, Len_slice.
  replace (0 <=? Z.of_nat i) with true by (symmetry; apply Z.leb_le; lia).
  replace (Z.of_nat i <? Z.of_nat (List.length a)) with true
    by (symmetry; apply Z.ltb_lt; lia).
  cbn [andb]. rewrite Nat2Z.id.
  destruct (nth_error a i) as [x|] eqn:E.
  - now rewrite (nth_error_nth _ _ d E).
  - apply nth_error_None in E. lia.
Qed.

(** X14: the rule of "SI" and "HR" for an address on one line, split at its
    commas.  It panics exactly when the last part has no space; otherwise
    [Zip] and [City] are the first and second tokens of the last part as they
    stand, and [Street] is the trimmed first part, followed by a comma, a
    space and the trimmed second part when there are exactly three parts. *)
Theorem ParseAddress_SI_HR_rule
    (countryCode address : string) (parts : list string) (config : list Config) :
  In (strings.TrimSpace countryCode) [si; hr] ->
  address <> "" ->
  strings.Count (strings.TrimSpace address) LF = 0 ->
  strings.Split (strings.TrimSpace address) "," = parts ->
  (ParseAddress countryCode address config = Panic
   <-> strings.Count (last parts "") " " = 0) /\
  (forall (zip city : string) (tokens : list string),
     strings.Split (last parts "") " " = zip :: city :: tokens ->
     ParseAddress countryCode address config =
     Return ({| Street := if len parts =? 3
                          then (strings.TrimSpace (hd "" parts) ++ ", " ++
                                strings.TrimSpace (nth 1 parts ""))%string
                          else strings.TrimSpace (hd "" parts);
                City := city;
                Zip := zip |}, None)).
Proof.
  intros Hin Ha Hn Hparts.
  assert (Hcc : countryCode <> "")
    by (intros ->; vm_compute in Hin; intuition discriminate).
  assert (Hne : parts <> []) by (rewrite <- Hparts; apply Split_nonempty).
  assert (Heq : ParseAddress countryCode address config =
                match strings.Split (last parts "") " " with
                | zip :: city :: _ =>
                    Return ({| Street := if len parts =? 3
                                         then (strings.TrimSpace (hd "" parts) ++ ", " ++
                                               strings.TrimSpace (nth 1 parts ""))%string
                                         else strings.TrimSpace (hd "" parts);
                               City := city;
                               Zip := zip |}, None)
                | _ => Panic
                end).
  { unfold ParseAddress. rewrite (len_nonempty _ Hcc), (len_nonempty _ Ha). cbv zeta.
    rewrite Hn, Hparts. remember (strings.TrimSpace countryCode) as c eqn:Ec. clear Ec.
    assert (Hbody :
              (parts0 <- index parts 0 ;;
               street <- (if len parts =? 3
                          then parts1 <- index parts 1 ;;
                               Return (strings.TrimSpace parts0 ++ ", " ++
                                       strings.TrimSpace parts1)%string
                          else Return (strings.TrimSpace parts0)) ;;
               last <- index parts (len parts - 1) ;;
               locationParts0 <- index (strings.Split last " ") 0 ;;
               locationParts1 <- index (strings.Split last " ") 1 ;;
               Return ({| Street := street;
                          Zip := locationParts0;
                          City := locationParts1 |}, @None error)) =
              match strings.Split (last parts "") " " with
              | zip :: city :: _ =>
                  Return ({| Street := if len parts =? 3
                                       then (strings.TrimSpace (hd "" parts) ++ ", " ++
                                             strings.TrimSpace (nth 1 parts ""))%string
                                       else strings.TrimSpace (hd "" parts);
                             City := city;
                             Zip := zip |}, None)
              | _ => Panic
              end).
    { rewrite (index_first parts "" Hne), (index_last parts "" Hne). cbn [bind].
      destruct (len parts =? 3) eqn:E3.
      - apply Z.eqb_eq in E3. unfold len, Len_slice in E3.
        change 1 with (Z.of_nat 1). rewrite (index_nth parts 1 "") by lia.
        cbn [bind].
        destruct (strings.Split (last parts "") " ") as [|z [|c' r]];
          [reflexivity | reflexivity | rewrite index_head, index_second; reflexivity].
      - cbn [bind].
        destruct (strings.Split (last parts "") " ") as [|z [|c' r]];
          [reflexivity | reflexivity | rewrite index_head, index_second; reflexivity]. }
    destruct Hin as [<-|[<-|[]]]; dispatch; change (0 =? 0) with true; cbn [andb];
      exact Hbody. }
  split.
  - rewrite Heq. destruct (strings.Split (last parts "") " ") as [|z [|c r]] eqn:Et.
    + now destruct (Split_nonempty (last parts "") " ").
    + split; [intros _; now apply tokens_one in Et | reflexivity].
    + apply tokens_two in Et. split; [discriminate | contradiction].
  - intros zip city tokens Ht. rewrite Heq, Ht. reflexivity.
Qed.

Lemma ParseAddress_SI_HR_rule_witness :
  strings.Split (strings.TrimSpace "Ilica 1,Centar,10000 Zagreb") "," =
    ["Ilica 1"; "Centar"; "10000 Zagreb"] /\
  ParseAddress "HR" "Ilica 1,Centar,10000 Zagreb" [] =
    Return ({| Street := "Ilica 1, Centar"; City := "Zagreb"; Zip := "10000" |}, None).
Proof.
  split; [reflexivity|].
  refine (proj2 (ParseAddress_SI_HR_rule "HR" "Ilica 1,Centar,10000 Zagreb"
                   ["Ilica 1"; "Centar"; "10000 Zagreb"] [] _ _ _ _)
                "10000" "Zagreb" [] _).
  - vm_compute. tauto.
  - discriminate.
  - reflexivity.
  - reflexivity.
  - reflexivity.
Defined.

(** ** What every result has in common *)

(** X15: the [Zip] that [ParseAddress] returns never holds a space, for any
    country code, address and configuration. *)
Theorem ParseAddress_Zip_no_space
    (countryCode address : string) (config : list Config)
    (parsed : ParsedAddress) (err : option error) :
  ParseAddress countryCode address config = Return (parsed, err) ->
  strings.Count (Zip parsed) " " = 0.
Proof.
  intros H. unfold ParseAddress in H. cbv zeta in H.
  follow H;
    repeat match goal with
           | E : (if _ then _ else _) = Return _ |- _ =>
               follow E; injection E; clear E; intros; subst
           end;
    injection H as <- <-; cbn [Zip ParsedAddress_zero];
    repeat first
      [ reflexivity
      | apply TrimSpace_Count_zero; [discriminate|]
      | apply Join_Count_zero; intros ? ?
      | match goal with
        | E : index (strings.Split ?l " ") _ = Return ?s |- strings.Count ?s " " = 0 =>
            apply (Split_tokens l " "); [discriminate | exact (index_In _ _ _ E)]
        | E : slice (strings.Split ?l " ") _ _ = Return ?zs, Hin : In ?x ?zs
          |- strings.Count ?x " " = 0 =>
            apply (Split_tokens l " "); [discriminate | exact (slice_In _ _ _ _ _ E Hin)]
        end ].
Qed.

Lemma ParseAddress_Zip_no_space_witness :
  ParseAddress "SK" ("Hlavná 1" ++ LF ++ "811 01 Bratislava")%string [] =
    Return ({| Street := "Hlavná 1"; City := "01"; Zip := "811" |}, None) /\
  strings.Count "811" " " = 0.
Proof.
  split; [vm_compute; reflexivity|].
  apply (ParseAddress_Zip_no_space "SK" ("Hlavná 1" ++ LF ++ "811 01 Bratislava")%string []
           {| Street := "Hlavná 1"; City := "01"; Zip := "811" |} None).
  vm_compute. reflexivity.
Defined.

(** X16: the [City] that [ParseAddress] returns holds no space either,
    except under the rule of "CZ" for three lines, which takes a whole line
    for it. *)
Theorem ParseAddress_City_no_space
    (countryCode address : string) (config : list Config)
    (parsed : ParsedAddress) (err : option error) :
  ParseAddress countryCode address config = Return (parsed, err) ->
  strings.TrimSpace countryCode <> "CZ" \/
  strings.Count (strings.TrimSpace address) LF <> 2 ->
  strings.Count (City parsed) " " = 0.
Proof.
  intros H Hcase. unfold ParseAddress in H. cbv zeta in H.
  follow H;
    repeat match goal with
           | E : (if _ then _ else _) = Return _ |- _ =>
               follow E; injection E; clear E; intros; subst
           end;
    injection H as <- <-; cbn [City ParsedAddress_zero];
    try (exfalso;
         match goal with
         | E1 : String.eqb _ cz = true, E2 : (_ =? 2) = true |- _ =>
             apply String.eqb_eq in E1; apply Z.eqb_eq in E2;
             destruct Hcase; contradiction
         end);
    try (rewrite district_prefixes);
    repeat first
      [ reflexivity
      | apply TrimSpace_Count_zero; [discriminate|]
      | apply Join_Count_zero; intros ? ?
      | match goal with
        | E : index (strings.Split ?l " ") _ = Return ?s |- strings.Count ?s " " = 0 =>
            apply (Split_tokens l " "); [discriminate | exact (index_In _ _ _ E)]
        | E : slice (strings.Split ?l " ") _ _ = Return ?zs, Hin : In ?x ?zs
          |- strings.Count ?x " " = 0 =>
            apply (Split_tokens l " "); [discriminate | exact (slice_In _ _ _ _ _ E Hin)]
        end ].
Qed.

Lemma ParseAddress_City_no_space_witness :
  ParseAddress "NL" ("Hoofdstraat 1" ++ LF ++ "2511 AB Den Haag")%string [] =
    Return ({| Street := "Hoofdstraat 1"; City := "AB"; Zip := "2511" |}, None) /\
  strings.Count "AB" " " = 0.
Proof.
  split; [vm_compute; reflexivity|].
  apply (ParseAddress_City_no_space "NL" ("Hoofdstraat 1" ++ LF ++ "2511 AB Den Haag")%string []
           {| Street := "Hoofdstraat 1"; City := "AB"; Zip := "2511" |} None).
  - vm_compute. reflexivity.
  - left. vm_compute. discriminate.
Defined.

(** X17: except for "SI" and "HR", every field that [ParseAddress] returns
    is trimmed: it has no white space at either end. *)
Theorem ParseAddress_fields_trimmed
    (countryCode address : string) (config : list Config)
    (parsed : ParsedAddress) (err : option error) :
  ParseAddress countryCode address config = Return (parsed, err) ->
  ~ In (strings.TrimSpace countryCode) [si; hr] ->
  strings.TrimSpace (Street parsed) = Street parsed /\
  strings.TrimSpace (City parsed) = City parsed /\
  strings.TrimSpace (Zip parsed) = Zip parsed.
Proof.
  intros H Hcode. unfold ParseAddress in H. cbv zeta in H.
  follow H;
    repeat match goal with
           | E : (if _ then _ else _) = Return _ |- _ =>
               follow E; injection E; clear E; intros; subst
           end;
    injection H as <- <-; cbn [Street City Zip ParsedAddress_zero];
    try (exfalso;
         match goal with
         | E : _ && slices.Contains [si; hr] _ = true |- _ =>
             apply andb_true_iff in E; destruct E as [_ E];
             apply Contains_In in E; contradiction
         end);
    rewrite ?TrimSpace_idempotent; repeat split; reflexivity.
Qed.

Lemma ParseAddress_fields_trimmed_witness :
  ParseAddress "CZ" (" Hlavní 1 " ++ LF ++ " 110 00  Praha 1 ")%string [] =
    Return ({| Street := "Hlavní 1"; City := "Praha"; Zip := "11000" |}, None) /\
  strings.TrimSpace "Hlavní 1" = "Hlavní 1" /\
  strings.TrimSpace "Praha" = "Praha" /\
  strings.TrimSpace "11000" = "11000".
Proof.
  split; [vm_compute; reflexivity|].
  apply (ParseAddress_fields_trimmed "CZ" (" Hlavní 1 " ++ LF ++ " 110 00  Praha 1 ")%string []
           {| Street := "Hlavní 1"; City := "Praha"; Zip := "11000" |} None).
  - vm_compute. reflexivity.
  - vm_compute. intuition discriminate.
Defined.

(** ** [MustParseAddress] *)

(** [MustParseAddress] returns a [ParsedAddress] exactly when
    [ParseAddress], called without configuration, returns it with no error;
    it panics when [ParseAddress] returns an error and when it panics. *)
Lemma MustParseAddress_iff (countryCode address : string) (parsed : ParsedAddress) :
  (MustParseAddress countryCode address = Return parsed
   <-> ParseAddress countryCode address [] = Return (parsed, None)) /\
  (MustParseAddress countryCode address = Panic
   <-> ParseAddress countryCode address [] = Panic \/
       exists (zero : ParsedAddress) (err : error),
         ParseAddress countryCode address [] = Return (zero, Some err)).
Proof.
  unfold MustParseAddress.
  destruct (ParseAddress countryCode address []) as [[p [e|]]|]; cbn [bind]; split; split;
    try discriminate; try congruence; try tauto;
    try (intros [H|(z & e' & H)]; discriminate H).
  intros _. right. exists p, e. reflexivity.
Qed.

(** X18: [MustParseAddress] panics on an empty country code, on an empty
    address and on a country code that is not supported once trimmed. *)
Theorem MustParseAddress_invalid_arguments (countryCode address : string) :
  countryCode = "" \/ address = "" \/
  ~ In (strings.TrimSpace countryCode) SupportedCountryCodes ->
  MustParseAddress countryCode address = Panic.
Proof.
  intros Hcase. unfold MustParseAddress.
  destruct (ParseAddress countryCode address []) as [[p [e|]]|] eqn:E;
    cbn [bind]; try reflexivity.
  apply ParseAddress_no_error in E. destruct E as (Hc & Ha & Hs).
  apply Contains_In in Hs. tauto.
Qed.

Lemma MustParseAddress_invalid_arguments_witness :
  ~ In (strings.TrimSpace "cz") SupportedCountryCodes /\
  MustParseAddress "cz" "Hlavní 1" = Panic.
Proof.
  assert (H : ~ In (strings.TrimSpace "cz") SupportedCountryCodes)
    by (vm_compute; intuition discriminate).
  split; [exact H|].
  apply MustParseAddress_invalid_arguments. right. right. exact H.
Defined.
